(** * article_generator: a shallow embedding of generator.py

    The development follows the layout of [src/article_generator/generator.py]:
    the dynamically typed trees produced by [yaml.safe_load] / [json.load],
    the three dataclasses, [load_article_data], [ArticleGenerator.render_article],
    [write_manifest], [write_index] and [generate_article_html], and then
    [main] of [src/article_generator/cli.py].

    Python values are untyped, so the records below carry [value] fields: a
    dataclass constructor stores whatever it is handed.  The annotations of
    the dataclasses appear as the predicates [meta_typed], [is_opt_str] and
    [is_str_list].

    Strings stand for Python [str] objects through their UTF-8 encoding.

    The two modules print through [rich.print], which reads its text as
    markup and may refuse a line that ends in a path; the console is part
    of the machine ([print_raises]), and a refused line ends the call that
    prints it.

    The file has three parts: the model, the vocabulary in which the
    properties are stated together with sample inputs, and the properties. *)

From Stdlib Require Import ZArith Ascii String Floats.SpecFloat.
From stdpp Require Import gmap strings list fin_maps sorting.

Open Scope string_scope.
Set Warnings "-register-all".

(** ** Values, exceptions, results *)

(** What the two parsers hand back.  [VDate iso] is a [datetime.date] or
    [datetime.datetime] built by the YAML loader; [iso] is the text its
    [isoformat()] returns.  Mappings keep their insertion order and have
    string keys (the JSON data model). *)
Inductive value : Type :=
  | VNull
  | VBool (b : bool)
  | VInt (z : Z)
  | VFloat (f : spec_float)
  | VStr (s : string)
  | VDate (iso : string)
  | VList (l : list value)
  | VDict (d : list (string * value)).

Abbreviation dict := (list (string * value)).

(** The exception classes the modelled code can raise. *)
Inductive exn : Type :=
  | FileNotFoundError
  | YAMLError
  | JSONDecodeError
  | KeyError (k : string)
  | TypeError
  | ValueError
  | AttributeError
  | OverflowError
  | TemplateNotFound (name : string)
  | MarkupError.

Inductive result (A : Type) : Type :=
  | Ok (a : A)
  | Raise (e : exn).
Arguments Ok {A} a.
Arguments Raise {A} e.

Definition rbind {A B} (r : result A) (k : A -> result B) : result B :=
  match r with
  | Ok a => k a
  | Raise e => Raise e
  end.

Notation "x <- r ;; k" := (rbind r (fun x => k))
  (at level 100, r at next level, right associativity).

Definition is_ok {A} (r : result A) : bool :=
  match r with Ok _ => true | Raise _ => false end.

(** [try: r except Exception: d] *)
Definition try_except {A} (r : result A) (d : A) : A :=
  match r with Ok a => a | Raise _ => d end.

Fixpoint mapM {A B} (f : A -> result B) (l : list A) : result (list B) :=
  match l with
  | [] => Ok []
  | x :: l' => y <- f x ;; ys <- mapM f l' ;; Ok (y :: ys)
  end.

(** ** Python dictionaries as ordered association lists *)

Fixpoint dict_get (k : string) (d : dict) : option value :=
  match d with
  | [] => None
  | (k', v) :: d' => if String.eqb k k' then Some v else dict_get k d'
  end.

(** [d[k] = v]: an existing key keeps its position. *)
Fixpoint dict_set (k : string) (v : value) (d : dict) : dict :=
  match d with
  | [] => [(k, v)]
  | (k', v') :: d' =>
      if String.eqb k k' then (k, v) :: d' else (k', v') :: dict_set k v d'
  end.

Definition dict_keys (d : dict) : list string := map fst d.

(** ** Strings *)

Definition lower_ascii (a : ascii) : ascii :=
  let n := N_of_ascii a in
  if ((65 <=? n) && (n <=? 90))%N then ascii_of_N (n + 32) else a.

(** [s.lower()], exact on the ASCII letters, which is all a test against an
    ASCII suffix can observe. *)
Fixpoint lower (s : string) : string :=
  match s with
  | EmptyString => EmptyString
  | String a s' => String (lower_ascii a) (lower s')
  end.

Fixpoint rev_string_acc (s acc : string) : string :=
  match s with
  | EmptyString => acc
  | String a s' => rev_string_acc s' (String a acc)
  end.

Definition rev_string (s : string) : string := rev_string_acc s EmptyString.

(** [s.endswith(suffix)] *)
Definition endswith (s suffix : string) : bool :=
  String.prefix (rev_string suffix) (rev_string s).

(** [s.endswith((suf1, suf2, ...))] *)
Definition endswith_any (s : string) (suffixes : list string) : bool :=
  existsb (endswith s) suffixes.

Definition is_continuation (a : ascii) : bool :=
  let n := N_of_ascii a in ((128 <=? n) && (n <? 192))%N.

(** Iterating a [str] yields its characters: a leading byte with the
    continuation bytes that follow it. *)
Fixpoint chars_from (s : string) : string * list string :=
  match s with
  | EmptyString => (EmptyString, [])
  | String a s' =>
      let '(pending, out) := chars_from s' in
      if is_continuation a then (String a pending, out)
      else (EmptyString, String a pending :: out)
  end.

Definition chars (s : string) : list string :=
  let '(pending, out) := chars_from s in
  match pending with
  | EmptyString => out
  | _ => pending :: out
  end.

(** ** Builtins *)

(** Two builtins are taken as given: the text [str(v)] of a value that is not
    already a string (it involves [repr] of floats and nested containers) and
    the parser behind [float(s)] for a string [s] ([None] is [ValueError]). *)
Class Builtins := {
  str_of_nonstr : value -> string;
  float_of_str : string -> option spec_float;
}.

Section WithBuiltins.
Context {B : Builtins}.

(** [str(v)] *)
Definition py_str (v : value) : string :=
  match v with
  | VStr s => s
  | _ => str_of_nonstr v
  end.

(** [float(z)] for an [int]: round to nearest, ties to even, on binary64;
    [OverflowError] when the integer is too large. *)
Definition float_of_int (z : Z) : result spec_float :=
  match binary_normalize 53 1024 z 0 false with
  | S754_infinity _ => Raise OverflowError
  | f => Ok f
  end.

(** [float(v)] *)
Definition py_float (v : value) : result spec_float :=
  match v with
  | VBool b => float_of_int (Z.b2z b)
  | VInt z => float_of_int z
  | VFloat f => Ok f
  | VStr s =>
      match float_of_str s with
      | Some f => Ok f
      | None => Raise ValueError
      end
  | _ => Raise TypeError
  end.

(** [bool(v)], as used by [if v] and [if not v]. *)
Definition py_truthy (v : value) : bool :=
  match v with
  | VNull => false
  | VBool b => b
  | VInt z => negb (z =? 0)%Z
  | VFloat (S754_zero _) => false
  | VFloat _ => true
  | VStr s => negb (String.eqb s "")
  | VDate _ => true
  | VList l => negb (Nat.eqb (length l) 0)
  | VDict d => negb (Nat.eqb (length d) 0)
  end.

(** [for x in v]: the items a loop or a comprehension visits. *)
Definition py_iter (v : value) : result (list value) :=
  match v with
  | VList l => Ok l
  | VStr s => Ok (map VStr (chars s))
  | VDict d => Ok (map VStr (dict_keys d))
  | _ => Raise TypeError
  end.

(** One element of the sequence given to [dict(...)]: it must itself have
    exactly two items. *)
Definition pair_of_item (v : value) : result (value * value) :=
  items <- py_iter v ;;
  match items with
  | [k; x] => Ok (k, x)
  | _ => Raise ValueError
  end.

(** [dict(items)] for a sequence of pairs.  A list or a mapping is not
    hashable and is refused as a key at once.  Any other key that is not a
    string makes a dictionary that the keyword calls [ArticleMeta( **d)] and
    [Review( **d)] refuse with [TypeError]; between [dict(...)] and that call
    only [TypeError] can be raised, so the flag [bad] defers it to the end of
    the scan. *)
Fixpoint dict_of_items (items : list value) (acc : dict) (bad : bool)
  : result dict :=
  match items with
  | [] => if bad then Raise TypeError else Ok acc
  | it :: items' =>
      p <- pair_of_item it ;;
      match p.1 with
      | VStr k => dict_of_items items' (dict_set k p.2 acc) bad
      | VList _ | VDict _ => Raise TypeError
      | _ => dict_of_items items' acc true
      end
  end.

(** [dict(v)]: a copy of a mapping, or a dictionary built from pairs. *)
Definition py_dict (v : value) : result dict :=
  match v with
  | VDict d => Ok d
  | _ => items <- py_iter v ;; dict_of_items items [] false
  end.

(** [isinstance(value, (date, datetime))] and [isoformat()] *)
Definition _to_str_if_date (v : value) : value :=
  match v with
  | VDate iso => VStr iso
  | _ => v
  end.

End WithBuiltins.

(** The value of a float as compared with an integer: Python compares the
    two exactly. *)
Definition float_eq_int (f : spec_float) (z : Z) : bool :=
  match f with
  | S754_zero _ => (z =? 0)%Z
  | S754_finite s m e =>
      let v := if s then Z.neg m else Z.pos m in
      if (0 <=? e)%Z then (z =? v * 2 ^ e)%Z else (z * 2 ^ (- e) =? v)%Z
  | _ => false
  end.

(** [a == b] on parsed values.  [bool] is a subclass of [int]; numbers compare
    by value across [int] and [float]; a NaN equals nothing; sequences compare
    element by element and mappings key by key.  Two date objects are compared
    through their ISO text. *)
Fixpoint py_eq (a b : value) {struct a} : bool :=
  match a, b with
  | VNull, VNull => true
  | VBool x, VBool y => Bool.eqb x y
  | VBool x, VInt z | VInt z, VBool x => (Z.b2z x =? z)%Z
  | VBool x, VFloat f | VFloat f, VBool x => float_eq_int f (Z.b2z x)
  | VInt x, VInt y => (x =? y)%Z
  | VInt z, VFloat f | VFloat f, VInt z => float_eq_int f z
  | VFloat f, VFloat g => SFeqb f g
  | VStr s, VStr t => String.eqb s t
  | VDate s, VDate t => String.eqb s t
  | VList l1, VList l2 =>
      (fix go (l1 l2 : list value) : bool :=
         match l1, l2 with
         | [], [] => true
         | x :: l1', y :: l2' => py_eq x y && go l1' l2'
         | _, _ => false
         end) l1 l2
  | VDict d1, VDict d2 =>
      Nat.eqb (length d1) (length d2) &&
      (fix go (d : dict) : bool :=
         match d with
         | [] => true
         | (k, v) :: d' =>
             match dict_get k d2 with
             | Some w => py_eq v w
             | None => false
             end && go d'
         end) d1
  | _, _ => false
  end.

(** What [json.dump] accepts: everything the parsers produce except date
    objects, which raise [TypeError] ("not JSON serializable"). *)
Fixpoint json_dumpable (v : value) : bool :=
  match v with
  | VDate _ => false
  | VList l =>
      (fix go (l : list value) : bool :=
         match l with
         | [] => true
         | x :: l' => json_dumpable x && go l'
         end) l
  | VDict d =>
      (fix go (d : dict) : bool :=
         match d with
         | [] => true
         | (_, x) :: d' => json_dumpable x && go d'
         end) d
  | _ => true
  end.

(** ** The dataclasses *)

Record Review := mkReview {
  author : value;
  rating : value;
  review_date : value;
  content : value;
  pros : value;
  cons : value;
  images : value;
}.

Record ArticleMeta := mkArticleMeta {
  title : value;
  slug : value;
  description : value;
  date : value;
  tags : value;
  hero_image : value;
  cover_credit : value;
}.

Record ArticleData := mkArticleData {
  article : ArticleMeta;
  reviews : list Review;
  gallery_dir : value;
}.

Definition kw_default (k : string) (dflt : value) (kw : dict) : value :=
  match dict_get k kw with
  | Some v => v
  | None => dflt
  end.

(** Binding of keyword arguments: every keyword must name a field. *)
Definition kw_known (fields : list string) (kw : dict) : bool :=
  forallb (fun k => existsb (String.eqb k) fields) (dict_keys kw).

Definition ArticleMeta_fields : list string :=
  ["title"; "slug"; "description"; "date"; "tags"; "hero_image";
   "cover_credit"].

(** [ArticleMeta( **kw)]: [TypeError] on an unexpected keyword or a missing
    [title] or [slug]; no field is type-checked or converted. *)
Definition ArticleMeta_init (kw : dict) : result ArticleMeta :=
  if kw_known ArticleMeta_fields kw then
    match dict_get "title" kw, dict_get "slug" kw with
    | Some t, Some s =>
        Ok {| title := t;
              slug := s;
              description := kw_default "description" VNull kw;
              date := kw_default "date" VNull kw;
              tags := kw_default "tags" (VList []) kw;
              hero_image := kw_default "hero_image" VNull kw;
              cover_credit := kw_default "cover_credit" VNull kw |}
    | _, _ => Raise TypeError
    end
  else Raise TypeError.

Definition Review_fields : list string :=
  ["author"; "rating"; "date"; "content"; "pros"; "cons"; "images"].

(** [Review( **kw)] *)
Definition Review_init (kw : dict) : result Review :=
  if kw_known Review_fields kw then
    match dict_get "author" kw with
    | Some a =>
        Ok {| author := a;
              rating := kw_default "rating" VNull kw;
              review_date := kw_default "date" VNull kw;
              content := kw_default "content" (VStr "") kw;
              pros := kw_default "pros" (VList []) kw;
              cons := kw_default "cons" (VList []) kw;
              images := kw_default "images" (VList []) kw |}
    | None => Raise TypeError
    end
  else Raise TypeError.

(** [ArticleMeta( **item)] for an arbitrary value: the operand of [**] must be
    a mapping. *)
Definition ArticleMeta_of_value (item : value) : result ArticleMeta :=
  match item with
  | VDict kw => ArticleMeta_init kw
  | _ => Raise TypeError
  end.

(** The annotations of the dataclasses, which Python records but does not
    enforce. *)
Definition is_str (v : value) : bool :=
  match v with VStr _ => true | _ => false end.

Definition is_opt_str (v : value) : bool :=
  match v with VNull | VStr _ => true | _ => false end.

Definition is_str_list (v : value) : bool :=
  match v with VList l => forallb is_str l | _ => false end.

Definition meta_typed (m : ArticleMeta) : bool :=
  is_str (title m) && is_str (slug m) && is_opt_str (description m) &&
  is_opt_str (date m) && is_str_list (tags m) && is_opt_str (hero_image m) &&
  is_opt_str (cover_credit m).

(** ** The data loader *)

(** A source file, seen through the two parsers: what [yaml.safe_load] and
    [json.load] return on its text, [None] when the parser rejects it. *)
Record srcfile := mkSrcfile {
  yaml_of : option value;
  json_of : option value;
}.

Section Loader.
Context {B : Builtins}.

(** [if k in d and d[k] is not None: d[k] = f(d[k])] *)
Definition normalize_key (k : string) (f : value -> result value) (d : dict)
  : result dict :=
  match dict_get k d with
  | None | Some VNull => Ok d
  | Some v => v' <- f v ;; Ok (dict_set k v' d)
  end.

Definition str_date (v : value) : result value :=
  Ok (VStr (py_str (_to_str_if_date v))).

(** [[str(t) for t in v]] *)
Definition str_list (v : value) : result value :=
  items <- py_iter v ;; Ok (VList (map (fun t => VStr (py_str t)) items)).

(** [try: float(v) except Exception: None] *)
Definition lenient_float (v : value) : result value :=
  Ok (try_except (f <- py_float v ;; Ok (VFloat f)) VNull).

(** The body of the loop over [raw.get("reviews", [])]. *)
Definition build_review (r : value) : result Review :=
  r <- py_dict r ;;
  r <- normalize_key "date" str_date r ;;
  r <- normalize_key "rating" lenient_float r ;;
  r <- normalize_key "pros" str_list r ;;
  r <- normalize_key "cons" str_list r ;;
  Review_init r.

(** Lines 116 to 142: from the parsed tree to the [ArticleData]. *)
Definition build_article_data (raw : value) : result ArticleData :=
  match raw with
  | VDict top =>
      match dict_get "article" top with
      | None => Raise (KeyError "article")
      | Some a =>
          art_raw <- py_dict a ;;
          art_raw <- normalize_key "date" str_date art_raw ;;
          art_raw <- normalize_key "tags" str_list art_raw ;;
          article_meta <- ArticleMeta_init art_raw ;;
          rs <- py_iter (kw_default "reviews" (VList []) top) ;;
          reviews <- mapM build_review rs ;;
          Ok {| article := article_meta;
                reviews := reviews;
                gallery_dir := kw_default "gallery_dir" VNull top |}
      end
  | _ => Raise TypeError
  end.

Definition is_yaml_path (file_path : string) : bool :=
  endswith_any (lower file_path) [".yaml"; ".yml"].

Definition load_article_data (fs : gmap string srcfile) (file_path : string)
  : result ArticleData :=
  match fs !! file_path with
  | None => Raise FileNotFoundError
  | Some f =>
      raw <- (if is_yaml_path file_path
              then match yaml_of f with
                   | Some v => Ok v
                   | None => Raise YAMLError
                   end
              else match json_of f with
                   | Some v => Ok v
                   | None => Raise JSONDecodeError
                   end) ;;
      build_article_data raw
  end.

End Loader.

(** ** The operating system and the template engine *)

(** What a template is given: the keyword arguments of [template.render]. *)
Inductive context : Type :=
  | ArticleContext (styles : string) (art : ArticleMeta) (hero : value)
      (gallery_images : list string) (revs : list Review)
  | IndexContext (styles : string) (articles : list ArticleMeta).

Definition template : Type := context -> result string.

(** [os.path.join] on a POSIX system. *)
Definition path_join (a b : string) : string :=
  if String.prefix "/" b then b
  else if String.eqb a "" || endswith a "/" then a ++ b
  else a ++ "/" ++ b.

(** The part of the machine the generator only reads: the image tree, the
    assets, the template directories, and [os.path.relpath], whose answer
    depends on the working directory; and the console.  Both modules print
    through [rich.print] ([from rich import print]), which reads its text as
    console markup before it writes anything: [print_raises text] is the
    exception this raises on [text], if any ([MarkupError] when a closing tag
    such as [[/b]] matches no open tag), and [None] when the text is
    printed. *)
Record os_world := mkWorld {
  path_relpath : string -> string -> string;
  path_exists : string -> bool;
  path_isdir : string -> bool;
  listdir : string -> list string;
  read_text : string -> string;
  load_template : string -> string -> option template;
  print_raises : string -> option exn;
}.

(** [sorted(names)]: strings are ordered by code point, which on UTF-8 text
    is the order of the bytes. *)
Fixpoint insert_sorted (x : string) (l : list string) : list string :=
  match l with
  | [] => [x]
  | y :: l' => if String.leb x y then x :: l else y :: insert_sorted x l'
  end.

Fixpoint sorted (l : list string) : list string :=
  match l with
  | [] => []
  | x :: l' => insert_sorted x (sorted l')
  end.

Definition image_suffixes : list string :=
  [".jpg"; ".jpeg"; ".png"; ".gif"; ".webp"].

Definition is_image_name (name : string) : bool :=
  endswith_any (lower name) image_suffixes.

(** A computation that prints warnings and may raise: the lines printed so
    far, then the outcome. *)
Definition logged (A : Type) : Type := list string * result A.

Definition lret {A} (a : A) : logged A := ([], Ok a).

Definition lbind {A B} (c : logged A) (k : A -> logged B) : logged B :=
  match c with
  | (w, Ok a) => let '(w', r) := k a in ((w ++ w')%list, r)
  | (w, Raise e) => (w, Raise e)
  end.

Notation "x <~ c ;; k" := (lbind c (fun x => k))
  (at level 100, c at next level, right associativity).

Definition lraise {A} (e : exn) : logged A := ([], Raise e).

Fixpoint lmapM {A B} (f : A -> logged B) (l : list A) : logged (list B) :=
  match l with
  | [] => lret []
  | x :: l' => y <~ f x ;; ys <~ lmapM f l' ;; lret (y :: ys)
  end.

Section Renderer.
Variable w : os_world.

(** The generator object: its template directory and its assets directory. *)
Record ArticleGenerator := mkGenerator {
  templates_dir : string;
  assets_dir : string;
}.

Definition get_template (g : ArticleGenerator) (name : string)
  : result template :=
  match load_template w (templates_dir g) name with
  | Some t => Ok t
  | None => Raise (TemplateNotFound name)
  end.

Definition _load_styles (g : ArticleGenerator) : string :=
  let css_path := path_join (assets_dir g) "styles.css" in
  if path_exists w css_path then read_text w css_path else "".

(** [print(text)] of [rich]: the line is printed, or the call raises and
    nothing is printed. *)
Definition rich_print (text : string) : logged unit :=
  match print_raises w text with
  | None => ([text], Ok tt)
  | Some e => ([], Raise e)
  end.

Definition missing_image (full : string) : string :=
  "[yellow]Warn:[/yellow] missing image " ++ full.

(** The local function [resolve_image] of [render_article]. *)
Definition resolve_image (images_root : string) (path : value) : logged value :=
  if negb (py_truthy path) then lret VNull
  else
    match path with
    | VStr p =>
        let full := path_join images_root p in
        if path_exists w full
        then lret (VStr (path_relpath w full images_root))
        else _ <~ rich_print (missing_image full) ;; lret VNull
    | _ => lraise TypeError
    end.

(** [[p for p in (resolve_image(p) for p in imgs) if p]] *)
Definition resolve_images (images_root : string) (imgs : value)
  : logged value :=
  match py_iter imgs with
  | Raise e => lraise e
  | Ok items =>
      rs <~ lmapM (resolve_image images_root) items ;;
      lret (VList (filter (fun p => py_truthy p = true) rs))
  end.

Definition set_images (r : Review) (imgs : value) : Review :=
  {| author := author r; rating := rating r; review_date := review_date r;
     content := content r; pros := pros r; cons := cons r; images := imgs |}.

(** The loop [for review in data.reviews: review.images = ...].  It returns
    the reviews as the loop leaves them, also when it is cut short by an
    exception: the reviews already visited stay rewritten.  The assignment
    rebinds the attribute of one [Review] object and leaves the old list
    alone; the elements of [data.reviews] are distinct objects
    ([load_article_data] builds one per entry), so the list of records is
    the whole of the state the loop writes. *)
Fixpoint resolve_reviews (images_root : string) (rs : list Review)
  : list Review * logged unit :=
  match rs with
  | [] => ([], lret tt)
  | r :: rs' =>
      match resolve_images images_root (images r) with
      | (lg, Raise e) => (r :: rs', (lg, Raise e))
      | (lg, Ok imgs) =>
          let '(rs'', (lg', out)) := resolve_reviews images_root rs' in
          (set_images r imgs :: rs'', ((lg ++ lg')%list, out))
      end
  end.

(** The gallery block of [render_article]. *)
Definition gallery_of (images_root : string) (gdir : value)
  : result (list string) :=
  if py_truthy gdir then
    match gdir with
    | VStr g =>
        let gallery_abs := path_join images_root g in
        if path_isdir w gallery_abs then
          Ok (map (fun name =>
                     path_relpath w (path_join gallery_abs name) images_root)
                  (filter (fun name => is_image_name name = true)
                          (sorted (listdir w gallery_abs))))
        else Ok []
    | _ => Raise TypeError
    end
  else Ok [].

(** [ArticleGenerator.render_article].  The result has three parts: the
    caller's [data] as the call leaves it, the lines printed, and the value
    returned or the exception raised. *)
Definition render_article (g : ArticleGenerator) (data : ArticleData)
    (images_root : string) : ArticleData * logged string :=
  match get_template g "article.html.j2" with
  | Raise e => (data, lraise e)
  | Ok tpl =>
      let styles := _load_styles g in
      match resolve_image images_root (hero_image (article data)) with
      | (lg, Raise e) => (data, (lg, Raise e))
      | (lg, Ok hero) =>
          match gallery_of images_root (gallery_dir data) with
          | Raise e => (data, (lg, Raise e))
          | Ok gallery =>
              let '(rs, (lg', out)) :=
                resolve_reviews images_root (reviews data) in
              let data' := {| article := article data; reviews := rs;
                              gallery_dir := gallery_dir data |} in
              match out with
              | Raise e => (data', ((lg ++ lg')%list, Raise e))
              | Ok _ =>
                  (data', ((lg ++ lg')%list,
                           tpl (ArticleContext styles (article data) hero
                                  gallery rs)))
              end
          end
      end
  end.

Definition render_index (g : ArticleGenerator) (articles : list ArticleMeta)
  : result string :=
  tpl <- get_template g "index.html.j2" ;;
  tpl (IndexContext (_load_styles g) articles).

End Renderer.

(** ** The manifest store *)

(** A file of the output directory as [json.load] sees it: [JsonFile v] reads
    back as [v], a rendered page and a dump that broke off are rejected by
    the parser.  The directory is a finite map from the names joined onto
    [out_dir] to files; opening a file for writing is taken to succeed. *)
Inductive outfile : Type :=
  | JsonFile (v : value)
  | Page (html : string)
  | Broken.

Section Store.
Context {B : Builtins}.

(** The dictionary literal written for an article, in the manifest and in
    the sidecar. *)
Definition manifest_entry (m : ArticleMeta) : value :=
  VDict [("title", title m);
         ("slug", slug m);
         ("description", description m);
         ("date", match date m with
                  | VNull => VNull
                  | d => VStr (py_str d)
                  end);
         ("tags", tags m)].

(** Lines 192 to 198: the stored list, or [[]] when the file is missing or
    cannot be read as JSON. *)
Definition read_items (out : gmap string outfile) : value :=
  match out !! "manifest.json" with
  | Some (JsonFile v) => v
  | _ => VList []
  end.

(** [i.get("slug")]: only a mapping has [get]. *)
Definition item_slug (i : value) : result value :=
  match i with
  | VDict d => Ok (kw_default "slug" VNull d)
  | _ => Raise AttributeError
  end.

(** [[i for i in items if i.get("slug") != slug]] over the visited items. *)
Fixpoint drop_slug (s : value) (items : list value) : result (list value) :=
  match items with
  | [] => Ok []
  | i :: items' =>
      got <- item_slug i ;;
      rest <- drop_slug s items' ;;
      Ok (if py_eq got s then rest else i :: rest)
  end.

(** [with open(name, "w") as f: json.dump(v, f, ...)]: the file is truncated
    on opening, so a value that cannot be serialised leaves a broken file
    behind and raises [TypeError]. *)
Definition dump_json (name : string) (v : value) (out : gmap string outfile)
  : gmap string outfile * result unit :=
  if json_dumpable v then (<[name := JsonFile v]> out, Ok tt)
  else (<[name := Broken]> out, Raise TypeError).

Definition sidecar_name (m : ArticleMeta) : string :=
  py_str (slug m) ++ ".meta.json".

(** [write_manifest]: the directory as the call leaves it, and whether it
    returned or raised. *)
Definition write_manifest (out : gmap string outfile) (article_meta : ArticleMeta)
  : gmap string outfile * result unit :=
  match (items <- py_iter (read_items out) ;;
         drop_slug (slug article_meta) items) with
  | Raise e => (out, Raise e)
  | Ok filtered =>
      let entry := manifest_entry article_meta in
      match dump_json "manifest.json" (VList (filtered ++ [entry])) out with
      | (out1, Raise e) => (out1, Raise e)
      | (out1, Ok _) => dump_json (sidecar_name article_meta) entry out1
      end
  end.

Definition manifest_warning : string :=
  "[yellow]Warn:[/yellow] unable to parse manifest.json, will rebuild if possible".

(** The loop [for item in stored: articles.append(ArticleMeta( **item))] under
    a [try] that encloses the whole loop: the first item that does not
    construct ends the loop, and what was appended before stays. *)
Fixpoint append_until_error (items : list value)
  : list ArticleMeta * option exn :=
  match items with
  | [] => ([], None)
  | item :: items' =>
      match ArticleMeta_of_value item with
      | Raise e => ([], Some e)
      | Ok m =>
          let '(ms, e) := append_until_error items' in (m :: ms, e)
      end
  end.

(** Lines 161 to 169 of [write_index]: the articles read from the manifest
    and the warning printed when the [except] clause ran.  The warning is a
    constant text whose two tags match, so that printing it returns. *)
Definition read_manifest_for_index (out : gmap string outfile)
  : list ArticleMeta * list string :=
  match out !! "manifest.json" with
  | None => ([], [])
  | Some (Page _) | Some Broken => ([], [manifest_warning])
  | Some (JsonFile stored) =>
      match py_iter stored with
      | Raise _ => ([], [manifest_warning])
      | Ok items =>
          match append_until_error items with
          | (ms, None) => (ms, [])
          | (ms, Some _) => (ms, [manifest_warning])
          end
      end
  end.

(** Lines 173 to 180: one sidecar.  [json.load] is outside the [try]; only
    the [TypeError] of the constructor is passed over. *)
Definition read_sidecar (f : outfile) : result (list ArticleMeta) :=
  match f with
  | Page _ | Broken => Raise JSONDecodeError
  | JsonFile meta =>
      match ArticleMeta_of_value meta with
      | Ok m => Ok [m]
      | Raise TypeError => Ok []
      | Raise e => Raise e
      end
  end.

Definition read_sidecars (out : gmap string outfile)
  : result (list ArticleMeta) :=
  ms <- mapM (fun nf => read_sidecar nf.2)
          (filter (fun nf => endswith nf.1 ".meta.json" = true)
                  (map_to_list out)) ;;
  Ok (concat ms).

(** The articles [write_index] hands to the index template. *)
Definition collect_articles (out : gmap string outfile)
  : logged (list ArticleMeta) :=
  let '(articles, lg) := read_manifest_for_index out in
  match articles with
  | [] => (lg, read_sidecars out)
  | _ => (lg, Ok articles)
  end.

Definition updated_line (index_path : string) : string :=
  "[green]Updated[/green] " ++ index_path.

(** [write_index]: the directory as the call leaves it, the lines printed,
    and whether it returned or raised.  The last [print] comes after
    [index.html] is written. *)
Definition write_index (w : os_world) (out_dir : string)
    (out : gmap string outfile) (templates_dir assets_dir : string)
  : gmap string outfile * logged unit :=
  match collect_articles out with
  | (lg, Raise e) => (out, (lg, Raise e))
  | (lg, Ok articles) =>
      let generator := mkGenerator templates_dir assets_dir in
      match render_index w generator articles with
      | Raise e => (out, (lg, Raise e))
      | Ok html =>
          let index_path := path_join out_dir "index.html" in
          (<["index.html" := Page html]> out,
           (_ <~ (lg, Ok tt) ;; rich_print w (updated_line index_path)))
      end
  end.

End Store.

(** ** The orchestrator *)

(** The source files and the output directory are kept apart: the input file
    is read from the first and never written; [os.makedirs(out_dir,
    exist_ok=True)] leaves a directory that exists, which is what the finite
    map of its files stands for. *)
Section Orchestrator.
Context {B : Builtins}.
Variable w : os_world.

(** [f"{data.article.slug}.html"] *)
Definition page_name (data : ArticleData) : string :=
  py_str (slug (article data)) ++ ".html".

Definition generated_line (out_path : string) : string :=
  "[green]Generated[/green] " ++ out_path.

(** [generate_article_html]: the output directory as the call leaves it, the
    lines printed, and the path returned or the exception raised.  The
    [print] comes after the page is written. *)
Definition generate_article_html (fs : gmap string srcfile)
    (out : gmap string outfile)
    (input_path templates_dir assets_dir images_root out_dir : string)
  : gmap string outfile * logged string :=
  match load_article_data fs input_path with
  | Raise e => (out, lraise e)
  | Ok data =>
      let generator := mkGenerator templates_dir assets_dir in
      match render_article w generator data images_root with
      | (_, (lg, Raise e)) => (out, (lg, Raise e))
      | (data, (lg, Ok html)) =>
          let out_path := path_join out_dir (page_name data) in
          (<[page_name data := Page html]> out,
           (_ <~ (lg, Ok tt) ;;
            _ <~ rich_print w (generated_line out_path) ;;
            lret out_path))
      end
  end.

(** The namespace [argparse] hands to [main]. *)
Record cli_args := mkArgs {
  arg_input : string;
  arg_images_root : string;
  arg_out : string;
  arg_templates : string;
  arg_assets : string;
  arg_index : bool;
}.

Definition default_templates : string := "/workspace/templates".
Definition default_assets : string := "/workspace/assets".

Definition done_line (out_path : string) : string :=
  "[bold green]Done[/bold green]: " ++ out_path.

(** [main] of cli.py, after the arguments are parsed. *)
Definition main (fs : gmap string srcfile) (out : gmap string outfile)
    (args : cli_args) : gmap string outfile * logged unit :=
  match generate_article_html fs out (arg_input args) (arg_templates args)
          (arg_assets args) (arg_images_root args) (arg_out args) with
  | (out1, (lg1, Raise e)) => (out1, (lg1, Raise e))
  | (out1, (lg1, Ok out_path)) =>
      match load_article_data fs (arg_input args) with
      | Raise e => (out1, (lg1, Raise e))
      | Ok data =>
          match write_manifest out1 (article data) with
          | (out2, Raise e) => (out2, (lg1, Raise e))
          | (out2, Ok _) =>
              if arg_index args then
                let '(out3, indexed) :=
                  write_index w (arg_out args) out2 (arg_templates args)
                    (arg_assets args) in
                (out3, (_ <~ (lg1, Ok tt) ;;
                        _ <~ indexed ;;
                        rich_print w (done_line out_path)))
              else
                (out2, (_ <~ (lg1, Ok tt) ;;
                        rich_print w (done_line out_path)))
          end
      end
  end.

End Orchestrator.

(** * The vocabulary of the properties

    The predicates in which the properties of the next part are stated:
    the shapes of inputs they range over and the values they expect. *)

(** The extensions the specification calls known structured-data formats. *)
Definition has_known_extension (file_path : string) : bool :=
  endswith_any (lower file_path) [".yaml"; ".yml"; ".json"].

(** The inputs the specification says must be refused for a missing field:
    no top-level ["article"] key, or an article object without [title] or
    without [slug]. *)
Definition lacks_required (raw : value) : bool :=
  match raw with
  | VDict top =>
      match dict_get "article" top with
      | None => true
      | Some (VDict a) =>
          negb (bool_decide (is_Some (dict_get "title" a))) ||
          negb (bool_decide (is_Some (dict_get "slug" a)))
      | Some _ => false
      end
  | _ => true
  end.

(** A value a comprehension can walk, or a field left out or null. *)
Definition opt_iterable (o : option value) : bool :=
  match o with
  | None | Some VNull => true
  | Some (VList _) | Some (VStr _) | Some (VDict _) => true
  | Some _ => false
  end.

(** A review entry that is sound in everything but, possibly, its rating. *)
Definition review_shape_ok (r : value) : bool :=
  match r with
  | VDict d =>
      kw_known Review_fields d &&
      bool_decide (is_Some (dict_get "author" d)) &&
      opt_iterable (dict_get "pros" d) && opt_iterable (dict_get "cons" d)
  | _ => false
  end.

Definition article_shape_ok (a : value) : bool :=
  match a with
  | VDict d =>
      kw_known ArticleMeta_fields d &&
      bool_decide (is_Some (dict_get "title" d)) &&
      bool_decide (is_Some (dict_get "slug" d)) &&
      opt_iterable (dict_get "tags" d)
  | _ => false
  end.

Section LoaderVocabulary.
Context {B : Builtins}.

(** The rating the specification expects for a review entry: absent when
    the entry has none or when [float] refuses the one it has. *)
Definition expected_rating (r : value) : value :=
  match r with
  | VDict d =>
      match dict_get "rating" d with
      | None | Some VNull => VNull
      | Some v =>
          match py_float v with
          | Ok f => VFloat f
          | Raise _ => VNull
          end
      end
  | _ => VNull
  end.

Definition parsed_as (f : srcfile) (file_path : string) : option value :=
  if is_yaml_path file_path then yaml_of f else json_of f.

End LoaderVocabulary.

(** Whether a stored item carries the slug [s], as the filter of
    [write_manifest] decides it. *)
Definition has_slug (s : value) (i : value) : bool :=
  match item_slug i with
  | Ok got => py_eq got s
  | Raise _ => false
  end.

(** A manifest entry as the specification describes it: a JSON object. *)
Definition is_entry (i : value) : bool :=
  match i with VDict _ => json_dumpable i | _ => false end.

(** The manifest is missing, unreadable, or an array of JSON objects. *)
Definition manifest_is_array (out : gmap string outfile) (items : list value)
  : Prop :=
  read_items out = VList items ∧ forallb is_entry items = true.

(** Moreover every stored object is one [ArticleMeta] can be built from. *)
Definition manifest_is_sound (out : gmap string outfile) (items : list value)
  : Prop :=
  manifest_is_array out items ∧
  forallb (λ i, is_ok (ArticleMeta_of_value i)) items = true.

(** The order of [sorted] on names. *)
Definition name_le (s t : string) : Prop := String.leb s t = true.

(** The strings of a list of strings. *)
Definition paths_of (v : value) : list string :=
  match v with
  | VList l => omap (λ x, match x with VStr s => Some s | _ => None end) l
  | _ => []
  end.

Section RenderVocabulary.
Variable w : os_world.
Variable images_root : string.

(** [os.path.relpath] never answers with the empty string: a path that
    coincides with the start is ["."]. *)
Definition relpath_nonempty : Prop := ∀ a b, path_relpath w a b ≠ "".

Definition rel_to_root (p : string) : string :=
  path_relpath w (path_join images_root p) images_root.

Definition on_disk (p : string) : Prop :=
  path_exists w (path_join images_root p) = true.

#[global] Instance on_disk_dec (p : string) : Decision (on_disk p) :=
  bool_eq_dec (path_exists w (path_join images_root p)) true.

(** What [resolve_image] keeps of a list of path strings, and the warnings
    it prints for the others; the empty string is passed over in silence. *)
Definition resolved_paths (ps : list string) : list string :=
  map rel_to_root (filter (λ p, p ≠ "" ∧ on_disk p) ps).

Definition missing_lines (ps : list string) : list string :=
  map (λ p, missing_image (path_join images_root p))
      (filter (λ p, p ≠ "" ∧ ¬ on_disk p) ps).

Definition resolved_hero (v : value) : value :=
  match v with
  | VStr h =>
      if decide (h ≠ "" ∧ on_disk h) then VStr (rel_to_root h) else VNull
  | _ => VNull
  end.

(** The review as [render_article] leaves it. *)
Definition resolved_review (r : Review) : Review :=
  set_images r (VList (map VStr (resolved_paths (paths_of (images r))))).

(** [print] returns on the line. *)
Definition prints (line : string) : Prop := print_raises w line = None.

(** The warnings [render_article] has to print for [data]: the one of the
    hero image when it is missing, then those of the missing review images,
    review by review. *)
Definition warnings_of (data : ArticleData) : list string :=
  (missing_lines (paths_of (VList [hero_image (article data)])) ++
   concat (map (λ r, missing_lines (paths_of (images r))) (reviews data)))%list.

End RenderVocabulary.

(** The gallery filter in the words of the specification: the extension of
    a name is what follows its last dot, and it is compared with [jpg],
    [jpeg], [png], [gif] and [webp] letter by letter, a capital letter
    counting as its small one. *)
Fixpoint extension (name : string) : option string :=
  match name with
  | EmptyString => None
  | String a rest =>
      match extension rest with
      | Some e => Some e
      | None => if Ascii.eqb a "." then Some rest else None
      end
  end.

Definition capital (a : ascii) : ascii :=
  let n := N_of_ascii a in
  if ((97 <=? n) && (n <=? 122))%N then ascii_of_N (n - 32) else a.

Fixpoint eq_nocase (s t : string) : bool :=
  match s, t with
  | EmptyString, EmptyString => true
  | String a s', String b t' => Ascii.eqb (capital a) (capital b) && eq_nocase s' t'
  | _, _ => false
  end.

Definition image_extensions : list string :=
  ["jpg"; "jpeg"; "png"; "gif"; "webp"].

Definition has_image_extension (name : string) : bool :=
  match extension name with
  | Some e => existsb (eq_nocase e) image_extensions
  | None => false
  end.

(** ** Sample inputs

    A stand-in for the two builtins, used to run the model: it prints the
    constants and reads unsigned decimal integers as floats.  No theorem
    below depends on it; each one holds for every [Builtins]. *)

Fixpoint digits_to_Z (s : string) (acc : Z) : option Z :=
  match s with
  | EmptyString => Some acc
  | String a s' =>
      let n := N_of_ascii a in
      if ((48 <=? n) && (n <=? 57))%N
      then digits_to_Z s' (10 * acc + Z.of_N (n - 48))
      else None
  end.

Definition sample_float_of_str (s : string) : option spec_float :=
  match s with
  | EmptyString => None
  | _ =>
      match digits_to_Z s 0 with
      | Some z => Some (binary_normalize 53 1024 z 0 false)
      | None => None
      end
  end.

Definition sample_str (v : value) : string :=
  match v with
  | VNull => "None"
  | VBool true => "True"
  | VBool false => "False"
  | VStr s => s
  | VDate iso => iso
  | _ => "?"
  end.

Definition sample_builtins : Builtins :=
  {| str_of_nonstr := sample_str; float_of_str := sample_float_of_str |}.

(** A file named [notes.txt] whose text is the JSON document
    [{"article": {"title": "T", "slug": "s"}}]; the YAML parser is not
    consulted for it. *)
Definition notes_tree : value :=
  VDict [("article", VDict [("title", VStr "T"); ("slug", VStr "s")])].

Definition notes_fs : gmap string srcfile :=
  {[ "notes.txt" := {| yaml_of := None; json_of := Some notes_tree |} ]}.

(** An input with two reviews, one rated ["great"] and one rated [4]. *)
Definition rated_tree : value :=
  VDict [("article", VDict [("title", VStr "T"); ("slug", VStr "s")]);
         ("reviews",
          VList [VDict [("author", VStr "ann"); ("rating", VStr "great")];
                 VDict [("author", VStr "bob"); ("rating", VInt 4)]])].

Definition rated_fs : gmap string srcfile :=
  {[ "in.json" := {| yaml_of := None; json_of := Some rated_tree |} ]}.

(** A YAML file whose article has a title but no slug. *)
Definition no_slug_fs : gmap string srcfile :=
  {[ "post.yaml" :=
       {| yaml_of := Some (VDict [("article", VDict [("title", VStr "T")])]);
          json_of := None |} ]}.

(** Four articles; the last one is A again under a new title. *)
Definition meta_A : ArticleMeta :=
  mkArticleMeta (VStr "A") (VStr "a") VNull VNull (VList []) VNull VNull.

Definition meta_B : ArticleMeta :=
  mkArticleMeta (VStr "B") (VStr "b") (VStr "second") (VStr "2024-05-01")
    (VList [VStr "x"; VStr "y"]) (VStr "hero.jpg") VNull.

Definition meta_C : ArticleMeta :=
  mkArticleMeta (VStr "C") (VStr "c") VNull VNull (VList []) VNull VNull.

Definition meta_A2 : ArticleMeta :=
  mkArticleMeta (VStr "A, revised") (VStr "a") VNull VNull (VList []) VNull VNull.

(** A manifest with a sound entry, an entry without a title, and a sound
    entry again; that is the JSON text
    [[{"title": "A", "slug": "a", ...}, {"slug": "b"}, {"title": "C", ...}]]. *)
Definition damaged_out : gmap string outfile :=
  {[ "manifest.json" :=
       JsonFile (VList [manifest_entry (B := sample_builtins) meta_A;
                        VDict [("slug", VStr "b")];
                        manifest_entry (B := sample_builtins) meta_C]) ]}.

(** A manifest that already holds A, and one that holds A twice around B. *)
Definition one_entry_out : gmap string outfile :=
  {[ "manifest.json" :=
       JsonFile (VList [manifest_entry (B := sample_builtins) meta_A]) ]}.

Definition doubled_out : gmap string outfile :=
  {[ "manifest.json" :=
       JsonFile (VList [manifest_entry (B := sample_builtins) meta_A;
                        manifest_entry (B := sample_builtins) meta_B;
                        manifest_entry (B := sample_builtins) meta_A]) ]}.

(** A stand-in for the console of [rich], used to run the model: the text
    is scanned for tags; [[name]] opens a tag, [[/name]] must name a tag that
    is open, and [[/]] closes the tag opened last.  A bracket that starts
    with no small letter, [#], [/] or [@] is plain text.  Escapes and tag
    parameters are not read. *)
Definition is_tag_start (a : ascii) : bool :=
  let n := N_of_ascii a in
  ((97 <=? n) && (n <=? 122))%N || existsb (Ascii.eqb a) ["#"; "/"; "@"]%char.

Fixpoint close_tag (name : string) (opened : list string)
  : option (list string) :=
  match opened with
  | [] => None
  | t :: opened' =>
      if String.eqb t name then Some opened'
      else option_map (λ rest, t :: rest) (close_tag name opened')
  end.

Definition tag_step (body : string) (opened : list string)
  : option (list string) :=
  match body with
  | EmptyString => Some opened
  | String c name =>
      if Ascii.eqb c "/" then
        match name with
        | EmptyString =>
            match opened with
            | [] => None
            | _ :: opened' => Some opened'
            end
        | _ => close_tag name opened
        end
      else if is_tag_start c then Some (body :: opened)
      else Some opened
  end.

Fixpoint scan_markup (text : string) (body : option string)
    (opened : list string) : option exn :=
  match text with
  | EmptyString => None
  | String a text' =>
      if Ascii.eqb a "[" then scan_markup text' (Some "") opened
      else
        match body with
        | None => scan_markup text' None opened
        | Some b =>
            if Ascii.eqb a "]" then
              match tag_step b opened with
              | Some opened' => scan_markup text' None opened'
              | None => Some MarkupError
              end
            else scan_markup text' (Some (b ++ String a "")) opened
        end
  end.

Definition sample_print_raises (text : string) : option exn :=
  scan_markup text None [].

(** [os.path.relpath] for a path written under [start]; any other path is
    only marked as leaving it. *)
Definition sample_relpath (full start : string) : string :=
  let pre := start ++ "/" in
  if String.prefix pre full then
    match substring (String.length pre)
            (String.length full - String.length pre) full with
    | EmptyString => "."
    | rest => rest
    end
  else "../" ++ full.

(** A template that prints the gallery list. *)
Definition sample_template : template :=
  fun ctx =>
    match ctx with
    | ArticleContext _ _ _ gallery _ => Ok (String.concat "," gallery)
    | IndexContext _ _ => Ok ""
    end.

(** An images root [/img] (which [os.path.join] with an empty path names
    [/img/]) holding [a.jpg] and a gallery directory [gal] listed by the
    system as [b.png], [a.jpg], [note.txt]. *)
Definition sample_world : os_world :=
  {| path_relpath := sample_relpath;
     path_exists := fun p =>
       existsb (String.eqb p)
         ["/img/"; "/img/a.jpg"; "/img/gal"; "/img/gal/a.jpg";
          "/img/gal/b.png"; "/img/gal/note.txt"];
     path_isdir := fun p => String.eqb p "/img/gal";
     listdir := fun p =>
       if String.eqb p "/img/gal" then ["b.png"; "a.jpg"; "note.txt"] else [];
     read_text := fun _ => "";
     load_template := fun _ _ => Some sample_template;
     print_raises := sample_print_raises |}.

Definition sample_generator : ArticleGenerator := mkGenerator "/tpl" "/assets".

Definition sample_review : Review :=
  mkReview (VStr "ann") VNull VNull (VStr "fine") (VList []) (VList [])
    (VList [VStr "a.jpg"; VStr "missing.png"]).

(** An article whose hero image [hero.jpg] is not on disk, with one review
    and the gallery [gal]. *)
Definition sample_data : ArticleData :=
  mkArticleData meta_B [sample_review] (VStr "gal").

(** A review that lists [a.jpg] and then an empty path. *)
Definition blank_path_review : Review :=
  mkReview (VStr "ann") VNull VNull (VStr "fine") (VList []) (VList [])
    (VList [VStr "a.jpg"; VStr ""]).

Definition blank_path_data : ArticleData :=
  mkArticleData meta_A [blank_path_review] VNull.

(** ** Vocabulary of the further properties *)

(** The review [Review(author=a)]: every other field at its default. *)
Definition minimal_review (a : value) : Review :=
  mkReview a VNull VNull (VStr "") (VList []) (VList []) (VList []).

Definition is_opt_float (v : value) : bool :=
  match v with VNull | VFloat _ => true | _ => false end.

Definition is_opt_str_list (v : value) : bool :=
  match v with VNull => true | _ => is_str_list v end.

(** The fields of a review that [load_article_data] rewrites. *)
Definition review_normalized (r : Review) : bool :=
  is_opt_float (rating r) && is_opt_str (review_date r) &&
  is_opt_str_list (pros r) && is_opt_str_list (cons r).

Definition is_dict (v : value) : bool :=
  match v with VDict _ => true | _ => false end.

(** The slugs of the stored items, as [i.get("slug")] reads them. *)
Definition stored_slugs (items : list value) : list value :=
  map (λ i, try_except (item_slug i) VNull) items.

(** The same machine with another answer of [os.listdir]. *)
Definition with_listdir (w : os_world) (ls : string → list string) : os_world :=
  {| path_relpath := path_relpath w; path_exists := path_exists w;
     path_isdir := path_isdir w; listdir := ls; read_text := read_text w;
     load_template := load_template w; print_raises := print_raises w |}.

Section RunsVocabulary.
Context {B : Builtins}.

(** One [write_manifest] per article, in order, each on the directory the
    previous one left. *)
Definition write_manifests (out : gmap string outfile) (ms : list ArticleMeta)
  : gmap string outfile :=
  foldl (λ o m, (write_manifest o m).1) out ms.

End RunsVocabulary.

(** ** Sample inputs of the further properties *)

Definition yaml_fs : gmap string srcfile :=
  {[ "Post.YAML" := {| yaml_of := Some notes_tree; json_of := None |} ]}.

(** What [rated_tree] loads to. *)
Definition rated_data : ArticleData :=
  {| article := mkArticleMeta (VStr "T") (VStr "s") VNull VNull (VList [])
                  VNull VNull;
     reviews :=
       [mkReview (VStr "ann") VNull VNull (VStr "") (VList []) (VList [])
          (VList []);
        mkReview (VStr "bob")
          (VFloat (S754_finite false 4503599627370496 (-50))) VNull (VStr "")
          (VList []) (VList []) (VList [])];
     gallery_dir := VNull |}.

(** An article dated by a YAML date object, with a boolean among its tags. *)
Definition dated_article : dict :=
  [("title", VStr "T"); ("slug", VStr "s"); ("date", VDate "2024-05-01");
   ("tags", VList [VStr "x"; VBool true])].

Definition dated_fs : gmap string srcfile :=
  {[ "post.yml" :=
       {| yaml_of := Some (VDict [("article", VDict dated_article)]);
          json_of := None |} ]}.

Definition dated_data : ArticleData :=
  {| article := mkArticleMeta (VStr "T") (VStr "s") VNull (VStr "2024-05-01")
                  (VList [VStr "x"; VStr "True"]) VNull VNull;
     reviews := [];
     gallery_dir := VNull |}.

Definition minimal_top : dict :=
  [("article", VDict [("title", VStr "T"); ("slug", VStr "s")]);
   ("reviews", VList [VDict [("author", VStr "ann")]])].

Definition minimal_fs : gmap string srcfile :=
  {[ "in.json" := {| yaml_of := None; json_of := Some (VDict minimal_top) |} ]}.

(** An article with a misspelt key, and an input whose reviews are null. *)
Definition misspelt_article : dict :=
  [("title", VStr "T"); ("slug", VStr "s"); ("desciption", VStr "d")].

Definition misspelt_fs : gmap string srcfile :=
  {[ "in.json" :=
       {| yaml_of := None;
          json_of := Some (VDict [("article", VDict misspelt_article)]) |} ]}.

Definition null_reviews_top : dict :=
  [("article", VDict [("title", VStr "T"); ("slug", VStr "s")]);
   ("reviews", VNull)].

Definition null_reviews_fs : gmap string srcfile :=
  {[ "in.json" :=
       {| yaml_of := None; json_of := Some (VDict null_reviews_top) |} ]}.

(** Output directories: a manifest holding the number 1, a manifest that
    broke off, and a lone sidecar that broke off. *)
Definition number_out : gmap string outfile :=
  {[ "manifest.json" := JsonFile (VList [VInt 1]) ]}.

Definition broken_out : gmap string outfile :=
  {[ "manifest.json" := Broken ]}.

Definition broken_sidecar_out : gmap string outfile :=
  {[ "x.meta.json" := Broken ]}.

(** A review whose images are null, after a sound one. *)
Definition null_images_review : Review :=
  mkReview (VStr "bob") VNull VNull (VStr "") (VList []) (VList []) VNull.

Definition null_images_data : ArticleData :=
  mkArticleData meta_B [sample_review; null_images_review; sample_review]
    (VStr "gal").

(** A review whose second image is missing and has a closing tag in its
    name, between two sound reviews. *)
Definition bracket_review : Review :=
  mkReview (VStr "cy") VNull VNull (VStr "") (VList []) (VList [])
    (VList [VStr "a.jpg"; VStr "a[/b].png"; VStr "missing.png"]).

Definition bracket_data : ArticleData :=
  mkArticleData meta_B [sample_review; bracket_review; sample_review]
    (VStr "gal").

(** The sample article with a gallery directory that does not exist. *)
Definition no_gallery_data : ArticleData :=
  mkArticleData meta_B [sample_review] (VStr "nowhere").

(** A run of the command line: the input file, the machine and its
    templates, the arguments. *)
Definition cli_tree : value :=
  VDict [("article",
          VDict [("title", VStr "B"); ("slug", VStr "b");
                 ("hero_image", VStr "hero.jpg")]);
         ("reviews",
          VList [VDict [("author", VStr "ann");
                        ("images", VList [VStr "a.jpg"; VStr "missing.png"])]]);
         ("gallery_dir", VStr "gal")].

Definition cli_fs : gmap string srcfile :=
  {[ "in.json" := {| yaml_of := None; json_of := Some cli_tree |} ]}.

Definition cli_data : ArticleData :=
  {| article := mkArticleMeta (VStr "B") (VStr "b") VNull VNull (VList [])
                  (VStr "hero.jpg") VNull;
     reviews :=
       [mkReview (VStr "ann") VNull VNull (VStr "") (VList []) (VList [])
          (VList [VStr "a.jpg"; VStr "missing.png"])];
     gallery_dir := VStr "gal" |}.

(** The text of a page: the gallery of an article, the number of articles
    of an index. *)
Definition sample_page (ctx : context) : string :=
  match ctx with
  | ArticleContext _ _ _ gallery _ => String.concat "," gallery
  | IndexContext _ arts => String.concat "," (map (λ _, "article") arts)
  end.

Definition cli_world : os_world :=
  with_listdir
    {| path_relpath := sample_relpath;
       path_exists := path_exists sample_world;
       path_isdir := path_isdir sample_world;
       listdir := listdir sample_world;
       read_text := read_text sample_world;
       load_template := fun _ _ => Some (fun ctx => Ok (sample_page ctx));
       print_raises := sample_print_raises |}
    (listdir sample_world).

Definition cli_run : cli_args :=
  {| arg_input := "in.json"; arg_images_root := "/img"; arg_out := "/site";
     arg_templates := default_templates; arg_assets := default_assets;
     arg_index := true |}.

(** * Properties *)

(** ** Facts about dictionaries and results *)

Lemma dict_get_set_eq k v d : dict_get k (dict_set k v d) = Some v.
Proof.
  induction d as [|[k' v'] d IH]; simpl.
  - by rewrite String.eqb_refl.
  - destruct (String.eqb k k') eqn:E; simpl; rewrite ?String.eqb_refl, ?E; done.
Qed.

Lemma dict_get_set_ne k k' v d :
  k ≠ k' → dict_get k (dict_set k' v d) = dict_get k d.
Proof.
  intros Hne. induction d as [|[k0 v0] d IH]; simpl.
  - destruct (String.eqb k k') eqn:E; [|done].
    apply String.eqb_eq in E. done.
  - destruct (String.eqb k' k0) eqn:E; simpl.
    + apply String.eqb_eq in E. subst k0.
      destruct (String.eqb k k') eqn:E'; [|done].
      apply String.eqb_eq in E'. done.
    + by rewrite IH.
Qed.

Lemma dict_keys_set k v d x :
  dict_get k d = Some x → dict_keys (dict_set k v d) = dict_keys d.
Proof.
  unfold dict_keys.
  induction d as [|[k' v'] d IH]; simpl; [done|].
  destruct (String.eqb k k') eqn:E; simpl.
  - apply String.eqb_eq in E. by subst.
  - intros Hd. f_equal. by apply IH.
Qed.

(** ** Facts about strings *)

Lemma string_app_cons x (a b : string) :
  (String x a ++ b)%string = String x (a ++ b).
Proof. reflexivity. Qed.

Lemma string_app_assoc (a b c : string) : ((a ++ b) ++ c = a ++ (b ++ c))%string.
Proof.
  induction a as [|x a IH]; [done|]. rewrite !string_app_cons. f_equal. apply IH.
Qed.

Lemma string_app_nil_r (a : string) : (a ++ "" = a)%string.
Proof.
  induction a as [|x a IH]; [done|]. rewrite string_app_cons. f_equal. apply IH.
Qed.

Lemma rev_string_acc_app s acc :
  rev_string_acc s acc = (rev_string s ++ acc)%string.
Proof.
  unfold rev_string. revert acc.
  induction s as [|a s IH]; intros acc; simpl; [done|].
  rewrite (IH (String a acc)), (IH (String a "")).
  by rewrite string_app_assoc.
Qed.

Lemma rev_string_app s t :
  rev_string (s ++ t) = (rev_string t ++ rev_string s)%string.
Proof.
  induction s as [|a s IH].
  - by rewrite string_app_nil_r.
  - rewrite string_app_cons. unfold rev_string at 1 3. simpl.
    rewrite !rev_string_acc_app, IH. by rewrite string_app_assoc.
Qed.

Lemma prefix_app a b : String.prefix a (a ++ b) = true.
Proof.
  induction a as [|x a IH]; [by destruct b|].
  rewrite string_app_cons. simpl. by destruct (ascii_dec x x).
Qed.

Lemma endswith_app s suffix : endswith (s ++ suffix) suffix = true.
Proof. unfold endswith. rewrite rev_string_app. apply prefix_app. Qed.

Lemma lower_app s t : lower (s ++ t) = (lower s ++ lower t)%string.
Proof.
  induction s as [|a s IH]; [done|].
  rewrite string_app_cons. simpl. rewrite string_app_cons. f_equal. apply IH.
Qed.

Lemma endswith_any_lower_app stem ext suffixes :
  lower ext ∈ suffixes → endswith_any (lower (stem ++ ext)) suffixes = true.
Proof.
  intros Hin. unfold endswith_any. apply existsb_exists.
  exists (lower ext). split; [by apply list_elem_of_In|].
  rewrite lower_app. apply endswith_app.
Qed.

Lemma rev_string_cons a s :
  rev_string (String a s) = (rev_string s ++ String a "")%string.
Proof. exact (rev_string_app (String a "") s). Qed.

Lemma rev_string_involutive s : rev_string (rev_string s) = s.
Proof.
  induction s as [|a s IH]; [done|].
  by rewrite rev_string_cons, rev_string_app, IH.
Qed.

Lemma prefix_decompose a s : String.prefix a s = true → ∃ t, s = (a ++ t)%string.
Proof.
  revert s. induction a as [|x a IH]; intros s; [by exists s|].
  destruct s as [|y s]; simpl; [done|].
  destruct (ascii_dec x y) as [->|]; [|done].
  intros [t ->]%IH. by exists t.
Qed.

Lemma endswith_decompose s suffix :
  endswith s suffix = true → ∃ pre, s = (pre ++ suffix)%string.
Proof.
  unfold endswith. intros [t Ht]%prefix_decompose.
  exists (rev_string t).
  rewrite <- (rev_string_involutive s), Ht, rev_string_app.
  by rewrite rev_string_involutive.
Qed.

Lemma lower_split n a b :
  lower n = (a ++ b)%string →
  ∃ x y, n = (x ++ y)%string ∧ lower x = a ∧ lower y = b.
Proof.
  revert n. induction a as [|c a IH]; intros n Hn.
  - by exists "", n.
  - destruct n as [|c0 n]; [done|]. rewrite string_app_cons in Hn.
    simpl in Hn. injection Hn as Hc Hn.
    destruct (IH n Hn) as (x & y & -> & <- & <-).
    exists (String c0 x), y. by rewrite <- Hc.
Qed.

Section LoaderFacts.
Context {B : Builtins}.

(** When the rewriting function succeeds on the value found, [normalize_key]
    succeeds, keeps the keys and touches only the key it names. *)
Lemma normalize_key_ok k f g d :
  (∀ v, dict_get k d = Some v → v ≠ VNull → f v = Ok (g v)) →
  ∃ d', normalize_key k f d = Ok d' ∧
        dict_keys d' = dict_keys d ∧
        (∀ k', k' ≠ k → dict_get k' d' = dict_get k' d) ∧
        dict_get k d' = match dict_get k d with
                        | None => None
                        | Some VNull => Some VNull
                        | Some v => Some (g v)
                        end.
Proof.
  intros Hf. unfold normalize_key.
  destruct (dict_get k d) as [v|] eqn:Hk.
  - assert (Hv : v = VNull ∨ v ≠ VNull) by (destruct v; auto).
    destruct Hv as [->|Hv].
    + exists d. by rewrite Hk.
    + exists (dict_set k (g v) d).
      split; [destruct v; try done; by rewrite (Hf _ eq_refl Hv)|].
      split; [by eapply dict_keys_set|].
      split; [intros k' Hk'; by apply dict_get_set_ne|].
      rewrite dict_get_set_eq. by destruct v.
  - exists d. by rewrite Hk.
Qed.

End LoaderFacts.

(** ** The data loader: extension dispatch, required fields, ratings *)

Section LoaderClaims.
Context {B : Builtins}.

Lemma load_article_data_parsed fs p f raw :
  fs !! p = Some f → parsed_as f p = Some raw →
  load_article_data fs p = build_article_data raw.
Proof.
  unfold load_article_data, parsed_as. intros -> Hp.
  destruct (is_yaml_path p); rewrite Hp; done.
Qed.

Lemma yaml_path_known p : is_yaml_path p = true → has_known_extension p = true.
Proof.
  unfold is_yaml_path, has_known_extension, endswith_any. simpl.
  intros Hy. repeat (apply orb_prop in Hy as [Hy|Hy]); rewrite ?Hy; simpl;
    rewrite ?orb_true_r; done.
Qed.

Lemma iterable_opt v : opt_iterable (Some v) = true → v ≠ VNull →
  ∃ items, py_iter v = Ok items.
Proof. destruct v; simpl; intros; try done; eauto. Qed.

(** [normalize_key] with a rewriting function that can only raise
    [TypeError]. *)
Lemma normalize_key_cases k f d :
  (∀ v e, f v = Raise e → e = TypeError) →
  normalize_key k f d = Raise TypeError ∨
  ∃ d', normalize_key k f d = Ok d' ∧ dict_keys d' = dict_keys d ∧
        ∀ k', k' ≠ k → dict_get k' d' = dict_get k' d.
Proof.
  intros Hf. unfold normalize_key.
  destruct (dict_get k d) as [v|] eqn:Hk; [|right; by exists d].
  destruct (f v) as [v'|e] eqn:Hv.
  - right. destruct v; try (by exists d);
      (exists (dict_set k v' d); simpl; split; [done|];
       split; [by eapply dict_keys_set|];
       intros k' Hk'; by apply dict_get_set_ne).
  - rewrite (Hf _ _ Hv). destruct v; try (by left). right. by exists d.
Qed.

Lemma str_list_raises v e : str_list v = Raise e → e = TypeError.
Proof. unfold str_list. destruct v; simpl; congruence. Qed.

Lemma str_date_raises v e : str_date v = Raise e → e = TypeError.
Proof. unfold str_date. congruence. Qed.

Lemma ArticleMeta_init_missing kw :
  dict_get "title" kw = None ∨ dict_get "slug" kw = None →
  ArticleMeta_init kw = Raise TypeError.
Proof.
  unfold ArticleMeta_init. destruct (kw_known _ _); [|done].
  intros [-> | ->]; [done|]. by destruct (dict_get "title" kw).
Qed.

(** An article object without [title] or [slug] never yields a record. *)
Lemma build_article_data_lacking top a :
  dict_get "article" top = Some (VDict a) →
  dict_get "title" a = None ∨ dict_get "slug" a = None →
  build_article_data (VDict top) = Raise TypeError.
Proof.
  intros Ha Hmiss. unfold build_article_data. rewrite Ha. simpl.
  destruct (normalize_key_cases "date" str_date a str_date_raises)
    as [-> | (d1 & -> & _ & G1)]; [done|]. simpl.
  destruct (normalize_key_cases "tags" str_list d1 str_list_raises)
    as [-> | (d2 & -> & _ & G2)]; [done|]. simpl.
  rewrite ArticleMeta_init_missing; [done|].
  rewrite !G2, !G1 by done. done.
Qed.

Lemma build_review_shape r :
  review_shape_ok r = true →
  ∃ rv, build_review r = Ok rv ∧ rating rv = expected_rating r.
Proof.
  destruct r as [| | | | | |?|d]; try done. simpl.
  intros Hs. repeat (apply andb_prop in Hs as [Hs ?]).
  unfold build_review. simpl.
  destruct (normalize_key_ok "date" str_date
              (λ v, VStr (py_str (_to_str_if_date v))) d)
    as (d1 & -> & K1 & G1 & _); [done|]. simpl.
  destruct (normalize_key_ok "rating" lenient_float
              (λ v, try_except (f <- py_float v ;; Ok (VFloat f)) VNull) d1)
    as (d2 & -> & K2 & G2 & R2); [done|]. simpl.
  assert (Hp : ∃ g, ∀ v, dict_get "pros" d2 = Some v → v ≠ VNull →
                         str_list v = Ok (g v)).
  { exists (λ v, VList (map (λ t, VStr (py_str t))
                         (try_except (py_iter v) []))).
    intros v Hv Hn. rewrite G2, G1 in Hv by done.
    rewrite Hv in *. destruct (iterable_opt v) as [it Hit]; [done..|].
    unfold str_list. by rewrite Hit. }
  destruct Hp as [gp Hp].
  destruct (normalize_key_ok "pros" str_list gp d2 Hp)
    as (d3 & -> & K3 & G3 & _). simpl.
  assert (Hc : ∃ g, ∀ v, dict_get "cons" d3 = Some v → v ≠ VNull →
                         str_list v = Ok (g v)).
  { exists (λ v, VList (map (λ t, VStr (py_str t))
                         (try_except (py_iter v) []))).
    intros v Hv Hn. rewrite G3, G2, G1 in Hv by done.
    rewrite Hv in *. destruct (iterable_opt v) as [it Hit]; [done..|].
    unfold str_list. by rewrite Hit. }
  destruct Hc as [gc Hc].
  destruct (normalize_key_ok "cons" str_list gc d3 Hc)
    as (d4 & -> & K4 & G4 & _). simpl.
  unfold Review_init, kw_known. rewrite K4, K3, K2, K1.
  fold (kw_known Review_fields d). rewrite Hs.
  rewrite G4, G3, G2, G1 by done.
  match goal with Ha : bool_decide (is_Some _) = true |- _ =>
    apply bool_decide_eq_true in Ha as [x Hx]; rewrite Hx end.
  eexists. split; [done|]. simpl. unfold kw_default.
  rewrite G4, G3 by done. rewrite R2. rewrite G1 by done.
  destruct (dict_get "rating" d) as [v|]; [|done].
  destruct v; try done; unfold try_except, rbind;
    repeat case_match; by simplify_eq.
Qed.

Lemma build_article_meta_shape a :
  article_shape_ok a = true →
  ∃ m, (art_raw <- py_dict a ;;
        art_raw <- normalize_key "date" str_date art_raw ;;
        art_raw <- normalize_key "tags" str_list art_raw ;;
        ArticleMeta_init art_raw) = Ok m.
Proof.
  destruct a as [| | | | | |?|d]; try done. simpl.
  intros Hs. repeat (apply andb_prop in Hs as [Hs ?]).
  destruct (normalize_key_ok "date" str_date
              (λ v, VStr (py_str (_to_str_if_date v))) d)
    as (d1 & -> & K1 & G1 & _); [done|]. simpl.
  assert (Ht : ∃ g, ∀ v, dict_get "tags" d1 = Some v → v ≠ VNull →
                         str_list v = Ok (g v)).
  { exists (λ v, VList (map (λ t, VStr (py_str t))
                         (try_except (py_iter v) []))).
    intros v Hv Hn. rewrite G1 in Hv by done.
    rewrite Hv in *. destruct (iterable_opt v) as [it Hit]; [done..|].
    unfold str_list. by rewrite Hit. }
  destruct Ht as [gt Ht].
  destruct (normalize_key_ok "tags" str_list gt d1 Ht)
    as (d2 & -> & K2 & G2 & _). simpl.
  unfold ArticleMeta_init, kw_known. rewrite K2, K1.
  fold (kw_known ArticleMeta_fields d). rewrite Hs.
  rewrite !G2, !G1 by done.
  repeat match goal with Ha : bool_decide (is_Some _) = true |- _ =>
    apply bool_decide_eq_true in Ha as [? Ha]; rewrite Ha end.
  by eexists.
Qed.

(** C1 (as amended).  A path whose extension is none of [.yaml], [.yml],
    [.json] is not refused: the file is opened and read with the JSON parser,
    exactly as a [.json] file is, and the outcome is that of the parsed tree
    (or [JSONDecodeError] when the text is not JSON). *)
Theorem load_unknown_extension_reads_json fs p f :
  fs !! p = Some f →
  has_known_extension p = false →
  load_article_data fs p =
    match json_of f with
    | Some raw => build_article_data raw
    | None => Raise JSONDecodeError
    end.
Proof.
  intros Hf Hext. unfold load_article_data. rewrite Hf.
  destruct (is_yaml_path p) eqn:Hy.
  - apply yaml_path_known in Hy. congruence.
  - by destruct (json_of f).
Qed.

(** C3.  Whatever the parser returned, [load_article_data] raises when the
    tree has no top-level ["article"] key ([KeyError], or [TypeError] when
    the tree is not a mapping at all) and when the article object has no
    [title] or no [slug] ([TypeError] from the dataclass constructor). *)
Theorem load_missing_field_raises fs p f raw :
  fs !! p = Some f →
  parsed_as f p = Some raw →
  lacks_required raw = true →
  load_article_data fs p =
    Raise (match raw with
           | VDict top =>
               match dict_get "article" top with
               | None => KeyError "article"
               | Some _ => TypeError
               end
           | _ => TypeError
           end).
Proof.
  intros Hf Hp Hl. rewrite (load_article_data_parsed _ _ _ _ Hf Hp).
  destruct raw as [| | | | | |?|top]; try done.
  simpl in Hl. destruct (dict_get "article" top) as [a|] eqn:Ha.
  - destruct a as [| | | | | |?|a]; try done.
    apply build_article_data_lacking with a; [done|].
    apply orb_prop in Hl as [Hl|Hl]; apply negb_true_iff in Hl;
      apply bool_decide_eq_false in Hl; [left|right];
      by apply eq_None_not_Some.
  - unfold build_article_data. by rewrite Ha.
Qed.

(** C9.  For an input whose article and review entries are sound in
    everything but the ratings, [load_article_data] returns, and the rating
    stored for each review is the float [float(rating)] yields, or [None]
    when [float] raises (or the rating is missing or null): no rating makes
    the load fail. *)
Theorem load_rating_lenient fs p f top a rs :
  fs !! p = Some f →
  parsed_as f p = Some (VDict top) →
  dict_get "article" top = Some a →
  article_shape_ok a = true →
  dict_get "reviews" top = Some (VList rs) →
  forallb review_shape_ok rs = true →
  ∃ data, load_article_data fs p = Ok data ∧
          map rating (reviews data) = map expected_rating rs.
Proof.
  intros Hf Hp Ha Hsa Hr Hrs.
  rewrite (load_article_data_parsed _ _ _ _ Hf Hp).
  unfold build_article_data. rewrite Ha.
  destruct (build_article_meta_shape a Hsa) as [m Hm].
  revert Hm.
  destruct (py_dict a) as [d0|]; simpl; [|done].
  destruct (normalize_key "date" str_date d0) as [d1|]; simpl; [|done].
  destruct (normalize_key "tags" str_list d1) as [d2|]; simpl; [|done].
  intros ->. simpl. unfold kw_default at 1. rewrite Hr. simpl.
  assert (Hall : ∃ rvs, mapM build_review rs = Ok rvs ∧
                        map rating rvs = map expected_rating rs).
  { clear -Hrs. induction rs as [|r rs IH]; simpl; [by exists []|].
    simpl in Hrs. apply andb_prop in Hrs as [Hr Hrs].
    destruct (build_review_shape r Hr) as (rv & -> & Hrv).
    destruct (IH Hrs) as (rvs & -> & Hrvs). simpl.
    exists (rv :: rvs). simpl. by rewrite Hrv, Hrvs. }
  destruct Hall as (rvs & -> & Hrvs). simpl. by eexists.
Qed.

End LoaderClaims.

(** ** The manifest store: upsert, read-back *)

Lemma json_dumpable_list l :
  json_dumpable (VList l) = forallb json_dumpable l.
Proof. induction l as [|x l IH]; simpl in *; [done|]. by rewrite IH. Qed.

Lemma forallb_app_single {A} (P : A → bool) l x :
  forallb P (l ++ [x]) = forallb P l && P x.
Proof. rewrite forallb_app. simpl. by rewrite andb_true_r. Qed.

Lemma forallb_filter {A} (P : A → bool) (Q : A → Prop) `{∀ x, Decision (Q x)} l :
  forallb P l = true → forallb P (filter Q l) = true.
Proof.
  induction l as [|x l IH]; simpl; [done|].
  intros [Hx Hl]%andb_prop. rewrite filter_cons.
  destruct (decide (Q x)); simpl; rewrite ?Hx; auto.
Qed.

Lemma py_eq_str_refl s : py_eq (VStr s) (VStr s) = true.
Proof. simpl. apply String.eqb_refl. Qed.

Lemma string_length_app (s t : string) :
  String.length (s ++ t) = String.length s + String.length t.
Proof. induction s as [|a s IH]; simpl; [done|]. by rewrite IH. Qed.

Lemma sidecar_is_not_manifest s : (s ++ ".meta.json")%string ≠ "manifest.json".
Proof.
  intros Heq.
  assert (Hlen : String.length s = 3).
  { apply (f_equal String.length) in Heq.
    rewrite string_length_app in Heq. simpl in Heq. lia. }
  destruct s as [|a [|b [|c [|d s]]]]; simpl in Hlen; try lia.
  simpl in Heq. by inversion Heq.
Qed.

Section StoreFacts.
Context {B : Builtins}.

Lemma drop_slug_entries s items :
  forallb is_entry items = true →
  drop_slug s items = Ok (filter (λ i, has_slug s i = false) items).
Proof.
  induction items as [|i items IH]; simpl; [done|].
  intros [Hi Hl]%andb_prop. rewrite (IH Hl). rewrite filter_cons.
  destruct i; try done. simpl.
  case_decide as Hd; unfold has_slug in Hd; simpl in Hd.
  - by rewrite Hd.
  - apply not_false_iff_true in Hd. by rewrite Hd.
Qed.

Lemma str_dumpable v : is_opt_str v = true → json_dumpable v = true.
Proof. by destruct v. Qed.

Lemma str_list_dumpable v : is_str_list v = true → json_dumpable v = true.
Proof.
  destruct v as [| | | | | |l|]; try done. simpl.
  induction l as [|x l IH]; simpl; [done|].
  intros [Hx Hl]%andb_prop. rewrite (IH Hl). by destruct x.
Qed.

Lemma manifest_entry_dumpable m :
  meta_typed m = true → is_entry (manifest_entry m) = true.
Proof.
  unfold meta_typed. intros Hm.
  repeat (apply andb_prop in Hm as [Hm ?]).
  simpl.
  rewrite (str_dumpable (title m)) by by destruct (title m).
  rewrite (str_dumpable (slug m)) by by destruct (slug m).
  rewrite (str_dumpable (description m)) by done.
  rewrite (str_list_dumpable (tags m)) by done.
  by destruct (date m).
Qed.

Lemma manifest_entry_slug m : item_slug (manifest_entry m) = Ok (slug m).
Proof. done. Qed.

Lemma has_slug_entry m :
  meta_typed m = true → has_slug (slug m) (manifest_entry m) = true.
Proof.
  unfold meta_typed, has_slug. intros Hm.
  repeat (apply andb_prop in Hm as [Hm ?]).
  rewrite manifest_entry_slug. destruct (slug m); try done.
  apply py_eq_str_refl.
Qed.

(** What one call of [write_manifest] does to a directory whose manifest is
    an array of objects. *)
Lemma write_manifest_array out m items :
  meta_typed m = true →
  manifest_is_array out items →
  write_manifest out m =
    (<[sidecar_name m := JsonFile (manifest_entry m)]>
       (<["manifest.json" :=
            JsonFile (VList (filter (λ i, has_slug (slug m) i = false) items
                             ++ [manifest_entry m]))]> out),
     Ok tt).
Proof.
  intros Hm [Hread Hitems]. unfold write_manifest. rewrite Hread. simpl.
  rewrite (drop_slug_entries _ _ Hitems). unfold dump_json.
  assert (He : json_dumpable (manifest_entry m) = true)
    by exact (manifest_entry_dumpable m Hm).
  assert (Hd : json_dumpable
                 (VList (filter (λ i, has_slug (slug m) i = false) items
                         ++ [manifest_entry m])) = true).
  { rewrite json_dumpable_list, forallb_app_single.
    apply andb_true_intro. split; [|done].
    apply forallb_filter. clear -Hitems.
    induction items as [|i l IH]; simpl in *; [done|].
    apply andb_prop in Hitems as [Hi Hl]. rewrite (IH Hl), andb_true_r.
    by destruct i. }
  rewrite Hd. cbv beta iota. by rewrite He.
Qed.

Lemma read_items_after_write out m v :
  read_items (<[sidecar_name m := JsonFile (manifest_entry m)]>
                (<["manifest.json" := JsonFile v]> out)) = v.
Proof.
  unfold read_items, sidecar_name.
  rewrite lookup_insert_ne by apply sidecar_is_not_manifest.
  by rewrite lookup_insert_eq.
Qed.

Lemma write_manifest_keeps_array out m items :
  meta_typed m = true →
  manifest_is_array out items →
  manifest_is_array (write_manifest out m).1
    (filter (λ i, has_slug (slug m) i = false) items ++ [manifest_entry m]).
Proof.
  intros Hm Harr. rewrite (write_manifest_array _ _ _ Hm Harr). simpl.
  split; [apply read_items_after_write|].
  rewrite forallb_app_single. apply andb_true_intro.
  split; [apply forallb_filter, Harr | by apply manifest_entry_dumpable].
Qed.

End StoreFacts.

Lemma filter_twice {A} (P : A → Prop) `{∀ x, Decision (P x)} (l : list A) :
  filter P (filter P l) = filter P l.
Proof.
  induction l as [|x l IH]; [done|]. rewrite filter_cons.
  destruct (decide (P x)) as [Hx|Hx]; [|done].
  rewrite filter_cons. rewrite decide_True by done. by rewrite IH.
Qed.

Lemma filter_complement (s : value) (l : list value) :
  filter (λ i, has_slug s i = true) (filter (λ i, has_slug s i = false) l) = [].
Proof.
  induction l as [|x l IH]; [done|]. rewrite filter_cons.
  destruct (decide (has_slug s x = false)) as [Hx|Hx]; [|done].
  rewrite filter_cons. rewrite decide_False; [done|]. by rewrite Hx.
Qed.

Lemma append_until_error_app l1 l2 :
  forallb (λ i, is_ok (ArticleMeta_of_value i)) l1 = true →
  ∃ ms1, Forall2 (λ i m, ArticleMeta_of_value i = Ok m) l1 ms1 ∧
         append_until_error (l1 ++ l2) =
           ((ms1 ++ (append_until_error l2).1)%list, (append_until_error l2).2).
Proof.
  induction l1 as [|i l1 IH]; simpl.
  - intros _. exists []. split; [constructor|]. by destruct (append_until_error l2).
  - intros [Hi Hl]%andb_prop. destruct (IH Hl) as (ms1 & HF & ->).
    destruct (ArticleMeta_of_value i) as [m|] eqn:Hm; [|done].
    exists (m :: ms1). split; [by constructor|done].
Qed.

Lemma reconstructed_slug d m s :
  ArticleMeta_of_value (VDict d) = Ok m →
  has_slug s (VDict d) = false → py_eq (slug m) s = false.
Proof.
  unfold has_slug, ArticleMeta_init. simpl. unfold ArticleMeta_init, kw_default.
  destruct (kw_known _ _); [|done].
  destruct (dict_get "title" d); [|done].
  destruct (dict_get "slug" d); [|done].
  by intros [= <-].
Qed.

(** C2.  The manifest parses and its third entry is sound, yet after the
    second entry fails to reconstruct the loop is over: only the first
    article is read, and the non-empty result keeps the sidecar scan from
    running. *)
Theorem manifest_read_stops_at_bad_entry :
  ArticleMeta_of_value (manifest_entry (B := sample_builtins) meta_C) = Ok meta_C ∧
  read_manifest_for_index damaged_out = ([meta_A], [manifest_warning]) ∧
  collect_articles damaged_out = ([manifest_warning], Ok [meta_A]).
Proof. repeat split; vm_compute; reflexivity. Qed.

Section StoreClaims.
Context {B : Builtins}.

Lemma manifest_entry_reads_back m :
  ArticleMeta_of_value (manifest_entry m) =
    Ok {| title := title m; slug := slug m; description := description m;
          date := match date m with VNull => VNull | d => VStr (py_str d) end;
          tags := tags m; hero_image := VNull; cover_credit := VNull |}.
Proof. done. Qed.

(** Every directory [write_manifest] produces is one the round trip
    applies to again. *)
Lemma write_manifest_keeps_sound out m items :
  meta_typed m = true →
  manifest_is_sound out items →
  manifest_is_sound (write_manifest out m).1
    (filter (λ i, has_slug (slug m) i = false) items ++ [manifest_entry m]).
Proof.
  intros Hm [Harr Hsound].
  split; [by apply write_manifest_keeps_array|].
  rewrite forallb_app_single. apply andb_true_intro.
  split; [by apply forallb_filter|].
  by rewrite manifest_entry_reads_back.
Qed.

(** C4.  Started on a directory whose manifest is missing, unreadable or an
    array of entries that reconstruct, [write_manifest] returns, and the
    index reconstruction then yields the earlier articles followed by one
    for the slug just written, which agrees with the argument on title, slug,
    description, date and tags; no earlier article carries that slug. *)
Theorem manifest_round_trip out items m :
  meta_typed m = true →
  manifest_is_sound out items →
  ∃ out' earlier m',
    write_manifest out m = (out', Ok tt) ∧
    collect_articles out' = ([], Ok (earlier ++ [m'])%list) ∧
    Forall (λ x, py_eq (slug x) (slug m) = false) earlier ∧
    title m' = title m ∧ slug m' = slug m ∧
    description m' = description m ∧ date m' = date m ∧ tags m' = tags m.
Proof.
  intros Hm [Harr Hsound].
  pose proof (write_manifest_array out m items Hm Harr) as Hw.
  set (kept := filter (λ i, has_slug (slug m) i = false) items) in *.
  assert (Hk : forallb (λ i, is_ok (ArticleMeta_of_value i)) kept = true)
    by by apply forallb_filter.
  destruct (append_until_error_app kept [manifest_entry m] Hk)
    as (earlier & HF & Happ).
  eexists _, earlier, _. split; [exact Hw|].
  split; [|split].
  - unfold collect_articles, read_manifest_for_index, sidecar_name.
    rewrite lookup_insert_ne by apply sidecar_is_not_manifest.
    rewrite lookup_insert_eq. simpl py_iter. cbv beta iota.
    rewrite Happ. simpl. by destruct earlier.
  - assert (Hkept : Forall (λ i, has_slug (slug m) i = false) kept).
    { apply Forall_forall. intros i Hi.
      by apply list_elem_of_filter in Hi as [Hi _]. }
    clear -HF Hkept. induction HF as [|i x l ms Hix _ IH]; [done|].
    inversion Hkept; subst. constructor; [|by apply IH].
    destruct i; try done. by eapply reconstructed_slug.
  - unfold meta_typed in Hm. repeat (apply andb_prop in Hm as [Hm ?]).
    simpl. repeat split; try done. by destruct (date m).
Qed.

(** C5.  From an empty manifest, writing A, then B, then A again under the
    same slug leaves the manifest holding exactly B followed by the second
    A: the rewritten entry sits at the end, not where A first stood. *)
Theorem upsert_moves_entry_to_end out mA mB mA' :
  meta_typed mA = true → meta_typed mB = true → meta_typed mA' = true →
  slug mA' = slug mA →
  slug mB ≠ slug mA →
  read_items out = VList [] →
  let r1 := write_manifest out mA in
  let r2 := write_manifest r1.1 mB in
  let r3 := write_manifest r2.1 mA' in
  r1.2 = Ok tt ∧ r2.2 = Ok tt ∧ r3.2 = Ok tt ∧
  r3.1 !! "manifest.json" =
    Some (JsonFile (VList [manifest_entry mB; manifest_entry mA'])).
Proof.
  intros HA HB HA' Hsame Hdiff Hempty. simpl.
  assert (Hne1 : has_slug (slug mB) (manifest_entry mA) = false).
  { unfold has_slug. rewrite manifest_entry_slug.
    unfold meta_typed in HA, HB.
    repeat (apply andb_prop in HA as [HA ?]).
    repeat (apply andb_prop in HB as [HB ?]).
    destruct (slug mA), (slug mB); try done. simpl.
    apply String.eqb_neq. congruence. }
  assert (Hne2 : has_slug (slug mA') (manifest_entry mB) = false).
  { unfold has_slug. rewrite manifest_entry_slug, Hsame.
    unfold meta_typed in HA, HB.
    repeat (apply andb_prop in HA as [HA ?]).
    repeat (apply andb_prop in HB as [HB ?]).
    destruct (slug mA), (slug mB); try done. simpl.
    apply String.eqb_neq. congruence. }
  assert (Heq : has_slug (slug mA') (manifest_entry mA) = true)
    by (rewrite Hsame; by apply has_slug_entry).
  assert (H0 : manifest_is_array out []) by done.
  pose proof (write_manifest_keeps_array out mA [] HA H0) as H1.
  rewrite (write_manifest_array out mA [] HA H0) in *. simpl in H1 |- *.
  pose proof (write_manifest_keeps_array _ mB _ HB H1) as H2.
  rewrite (write_manifest_array _ mB _ HB H1) in *.
  rewrite filter_cons, decide_True, filter_nil in H2 |- * by done.
  simpl in H2 |- *.
  rewrite (write_manifest_array _ mA' _ HA' H2). simpl.
  repeat split.
  unfold sidecar_name at 1.
  rewrite lookup_insert_ne by apply sidecar_is_not_manifest.
  rewrite lookup_insert_eq.
  rewrite filter_cons, decide_False by (by rewrite Heq).
  rewrite filter_cons, decide_True, filter_nil by done. done.
Qed.

(** C6.  Whatever array of entries the manifest starts as (or when it is
    missing or unreadable), two calls of [write_manifest] with the same
    article both return, the second leaves the directory as the first did,
    and the manifest then holds exactly one entry with that slug. *)
Theorem write_manifest_twice out items m :
  meta_typed m = true →
  manifest_is_array out items →
  let r1 := write_manifest out m in
  let r2 := write_manifest r1.1 m in
  r1.2 = Ok tt ∧ r2.2 = Ok tt ∧ r2.1 = r1.1 ∧
  ∃ stored, r2.1 !! "manifest.json" = Some (JsonFile (VList stored)) ∧
            length (filter (λ i, has_slug (slug m) i = true) stored) = 1.
Proof.
  intros Hm Harr. simpl.
  pose proof (write_manifest_keeps_array out m items Hm Harr) as H1.
  rewrite (write_manifest_array out m items Hm Harr) in *. simpl in H1 |- *.
  rewrite (write_manifest_array _ m _ Hm H1). simpl.
  set (kept := filter (λ i, has_slug (slug m) i = false) items).
  assert (Hagain : filter (λ i, has_slug (slug m) i = false)
                     (kept ++ [manifest_entry m])%list = kept).
  { rewrite filter_app. unfold kept. rewrite filter_twice.
    rewrite filter_cons, decide_False, filter_nil, app_nil_r; [done|].
    by rewrite (has_slug_entry m Hm). }
  rewrite Hagain.
  repeat split.
  - apply map_eq. intros k.
    destruct (decide (k = sidecar_name m)) as [->|Hk1];
      [by rewrite !lookup_insert_eq|].
    destruct (decide (k = "manifest.json")) as [->|Hk2].
    + rewrite lookup_insert_ne by congruence. rewrite lookup_insert_eq.
      rewrite lookup_insert_ne by congruence. by rewrite lookup_insert_eq.
    + by rewrite !lookup_insert_ne by congruence.
  - exists (kept ++ [manifest_entry m])%list. split.
    + unfold sidecar_name at 1.
      rewrite lookup_insert_ne by apply sidecar_is_not_manifest.
      by rewrite lookup_insert_eq.
    + rewrite filter_app. unfold kept. rewrite filter_complement.
      rewrite filter_cons, decide_True by by apply has_slug_entry.
      done.
Qed.

End StoreClaims.

(** ** The renderer: image resolution and gallery listing *)

Lemma name_le_total s t : name_le s t ∨ name_le t s.
Proof. apply String.leb_total. Qed.

Lemma name_le_trans s t u : name_le s t → name_le t u → name_le s u.
Proof.
  unfold name_le, String.leb. revert t u.
  induction s as [|a s IH]; intros [|b t] [|c u]; simpl; try done.
  unfold Ascii.compare.
  destruct (N.compare_spec (N_of_ascii a) (N_of_ascii b)) as [Hab|Hab|Hab];
    destruct (N.compare_spec (N_of_ascii b) (N_of_ascii c)) as [Hbc|Hbc|Hbc];
    destruct (N.compare_spec (N_of_ascii a) (N_of_ascii c)) as [Hac|Hac|Hac];
    try done; try lia.
  apply IH.
Qed.

Lemma insert_sorted_perm x l : insert_sorted x l ≡ₚ x :: l.
Proof.
  induction l as [|y l IH]; simpl; [done|].
  destruct (String.leb x y); [done|].
  rewrite IH. apply Permutation_swap.
Qed.

Lemma sorted_perm l : sorted l ≡ₚ l.
Proof.
  induction l as [|x l IH]; simpl; [done|].
  by rewrite insert_sorted_perm, IH.
Qed.

Lemma insert_sorted_strongly x l :
  StronglySorted name_le l → StronglySorted name_le (insert_sorted x l).
Proof.
  induction 1 as [|y l Hl IH Hy]; simpl.
  - repeat constructor.
  - destruct (String.leb x y) eqn:Hxy.
    + constructor; [by constructor|].
      constructor; [done|].
      eapply Forall_impl; [exact Hy|]. intros z Hz.
      by eapply name_le_trans.
    + constructor; [done|].
      rewrite insert_sorted_perm. constructor; [|done].
      destruct (name_le_total x y) as [Hle|Hle]; [|done].
      unfold name_le in Hle. congruence.
Qed.

Lemma sorted_strongly l : StronglySorted name_le (sorted l).
Proof.
  induction l as [|x l IH]; simpl; [constructor|].
  by apply insert_sorted_strongly.
Qed.

Lemma StronglySorted_filter_names (P : string → Prop) `{∀ x, Decision (P x)} l :
  StronglySorted name_le l → StronglySorted name_le (filter P l).
Proof.
  induction 1 as [|y l Hl IH Hy]; [constructor|].
  rewrite filter_cons. destruct (decide (P y)); [|done].
  constructor; [done|].
  apply Forall_forall. intros z [_ Hz]%list_elem_of_filter.
  by eapply Forall_forall in Hy.
Qed.

Lemma str_list_paths v :
  is_str_list v = true → v = VList (map VStr (paths_of v)).
Proof.
  destruct v as [| | | | | |l|]; try done. simpl. intros Hl. f_equal.
  induction l as [|x l IH]; simpl in *; [done|].
  apply andb_prop in Hl as [Hx Hl]. destruct x; try done. simpl.
  f_equal. by apply IH.
Qed.

Lemma paths_of_strs ps : paths_of (VList (map VStr ps)) = ps.
Proof.
  unfold paths_of. induction ps as [|p ps IH]; [done|].
  simpl. f_equal. exact IH.
Qed.

Section RenderFacts.
Variable w : os_world.
Variable images_root : string.

Lemma rich_print_prints line :
  prints w line → rich_print w line = ([line], Ok tt).
Proof. unfold prints, rich_print. by intros ->. Qed.

Lemma rich_print_raises line e :
  print_raises w line = Some e → rich_print w line = ([], Raise e).
Proof. unfold rich_print. by intros ->. Qed.

(** [resolve_image] on a string: an empty path and a path on disk are
    settled without printing; a missing one goes through [print]. *)
Lemma resolve_image_cases p :
  resolve_image w images_root (VStr p) =
    if decide (p ≠ "" ∧ ¬ on_disk w images_root p)
    then (_ <~ rich_print w (missing_image (path_join images_root p)) ;;
          lret VNull)
    else ([], Ok (resolved_hero w images_root (VStr p))).
Proof.
  unfold resolve_image, resolved_hero. simpl.
  destruct (String.eqb_spec p "") as [->|Hp]; simpl.
  - done.
  - destruct (decide (on_disk w images_root p)) as [Hd|Hd].
    + rewrite decide_False by tauto. rewrite decide_True by done.
      unfold on_disk in Hd. by rewrite Hd.
    + rewrite decide_True by done.
      unfold on_disk in Hd. apply not_true_is_false in Hd. by rewrite Hd.
Qed.

Lemma missing_lines_one p :
  missing_lines w images_root [p] =
    if decide (p ≠ "" ∧ ¬ on_disk w images_root p)
    then [missing_image (path_join images_root p)] else [].
Proof.
  unfold missing_lines. rewrite filter_cons, filter_nil.
  by destruct (decide (p ≠ "" ∧ ¬ on_disk w images_root p)).
Qed.

Lemma resolve_image_str p :
  Forall (prints w) (missing_lines w images_root [p]) →
  resolve_image w images_root (VStr p) =
    (missing_lines w images_root [p], Ok (resolved_hero w images_root (VStr p))).
Proof.
  rewrite resolve_image_cases, missing_lines_one.
  destruct (decide (p ≠ "" ∧ ¬ on_disk w images_root p)) as [[Hp Hd]|Hn];
    [|done].
  rewrite Forall_singleton. intros Hpr.
  rewrite (rich_print_prints _ Hpr). simpl.
  unfold resolved_hero. rewrite decide_False by tauto. done.
Qed.

Lemma resolve_image_opt_str v :
  is_opt_str v = true →
  Forall (prints w) (missing_lines w images_root (paths_of (VList [v]))) →
  resolve_image w images_root v = (missing_lines w images_root (paths_of (VList [v])),
                                   Ok (resolved_hero w images_root v)).
Proof.
  destruct v; try done. intros _. apply resolve_image_str.
Qed.

Lemma missing_lines_cons p ps :
  missing_lines w images_root (p :: ps) = (missing_lines w images_root [p] ++ missing_lines w images_root ps)%list.
Proof.
  unfold missing_lines. rewrite <- fmap_app, <- filter_app. done.
Qed.

Lemma resolved_paths_cons p ps :
  resolved_paths w images_root (p :: ps) = (resolved_paths w images_root [p] ++ resolved_paths w images_root ps)%list.
Proof.
  unfold resolved_paths. rewrite <- fmap_app, <- filter_app. done.
Qed.

Lemma lmapM_resolve_image ps :
  relpath_nonempty w →
  Forall (prints w) (missing_lines w images_root ps) →
  ∃ rs, lmapM (resolve_image w images_root) (map VStr ps)
          = (missing_lines w images_root ps, Ok rs) ∧
        filter (λ p, py_truthy p = true) rs = map VStr (resolved_paths w images_root ps).
Proof.
  intros Hrel. induction ps as [|p ps IH]; [by exists []|].
  rewrite missing_lines_cons. intros [Hp Hps]%Forall_app.
  destruct (IH Hps) as (rs & Hlm & Hrs).
  exists (resolved_hero w images_root (VStr p) :: rs). split.
  - simpl. rewrite (resolve_image_str _ Hp). simpl. rewrite Hlm. simpl.
    by rewrite app_nil_r.
  - rewrite filter_cons, Hrs, resolved_paths_cons. simpl.
    unfold resolved_paths. rewrite filter_cons, filter_nil.
    destruct (decide (p ≠ "" ∧ on_disk w images_root p)); simpl; [|done].
    rewrite decide_True; [done|].
    apply negb_true_iff, String.eqb_neq, Hrel.
Qed.

Lemma resolve_images_strs ps :
  relpath_nonempty w →
  Forall (prints w) (missing_lines w images_root ps) →
  resolve_images w images_root (VList (map VStr ps)) =
    (missing_lines w images_root ps, Ok (VList (map VStr (resolved_paths w images_root ps)))).
Proof.
  intros Hrel Hpr. unfold resolve_images. simpl.
  destruct (lmapM_resolve_image ps Hrel Hpr) as (rs & -> & Hrs).
  simpl. by rewrite app_nil_r, Hrs.
Qed.

Lemma resolve_reviews_typed rs :
  relpath_nonempty w →
  Forall (λ r, is_str_list (images r) = true) rs →
  Forall (prints w)
    (concat (map (λ r, missing_lines w images_root (paths_of (images r))) rs)) →
  resolve_reviews w images_root rs =
    (map (resolved_review w images_root) rs,
     (concat (map (λ r, missing_lines w images_root (paths_of (images r))) rs), Ok tt)).
Proof.
  intros Hrel. induction 1 as [|r rs Hr _ IH]; [done|].
  simpl. intros [Hp Hps]%Forall_app. rewrite (str_list_paths _ Hr) at 1.
  rewrite resolve_images_strs by done. by rewrite IH.
Qed.

Lemma gallery_of_opt_str gdir :
  is_opt_str gdir = true → ∃ gl, gallery_of w images_root gdir = Ok gl.
Proof.
  unfold gallery_of. destruct gdir; try done; simpl; intros _; [by eexists|].
  destruct (negb _); [|by eexists].
  destruct (path_isdir _ _); by eexists.
Qed.

(** [render_article] on data that respects the annotations, when the
    warnings it has to print are printed: it reaches the template, and its
    effects are the ones listed. *)
Lemma render_article_typed g data tpl :
  load_template w (templates_dir g) "article.html.j2" = Some tpl →
  relpath_nonempty w →
  is_opt_str (hero_image (article data)) = true →
  is_opt_str (gallery_dir data) = true →
  Forall (λ r, is_str_list (images r) = true) (reviews data) →
  Forall (prints w) (warnings_of w images_root data) →
  ∃ gallery,
    gallery_of w images_root (gallery_dir data) = Ok gallery ∧
    render_article w g data images_root =
      ({| article := article data;
          reviews := map (resolved_review w images_root) (reviews data);
          gallery_dir := gallery_dir data |},
       (warnings_of w images_root data,
        tpl (ArticleContext (_load_styles w g) (article data)
               (resolved_hero w images_root (hero_image (article data))) gallery
               (map (resolved_review w images_root) (reviews data))))).
Proof.
  intros Htpl Hrel Hhero Hgal Hrs [Hph Hpr]%Forall_app.
  destruct (gallery_of_opt_str _ Hgal) as [gallery Hg].
  exists gallery. split; [done|].
  unfold render_article, get_template. rewrite Htpl.
  rewrite (resolve_image_opt_str _ Hhero Hph), Hg.
  by rewrite (resolve_reviews_typed _ Hrel Hrs Hpr).
Qed.

End RenderFacts.

Lemma filter_ext_elem {A} (P Q : A → Prop) `{∀ x, Decision (P x)}
    `{∀ x, Decision (Q x)} (l : list A) :
  (∀ x, x ∈ l → (P x ↔ Q x)) → filter P l = filter Q l.
Proof.
  induction l as [|x l IH]; [done|]. intros Hl.
  rewrite !filter_cons.
  assert (Hx : P x ↔ Q x) by (apply Hl; left).
  rewrite IH by (intros y Hy; apply Hl; by right).
  destruct (decide (P x)), (decide (Q x)); try done; tauto.
Qed.

Lemma is_image_name_suffix n :
  is_image_name n = true ↔
  ∃ suffix, suffix ∈ image_suffixes ∧ endswith (lower n) suffix = true.
Proof.
  unfold is_image_name, endswith_any. rewrite existsb_exists.
  split; intros (s & Hs & He); exists s; by rewrite list_elem_of_In in *.
Qed.

(** The test of the code and the wording of the specification agree: a
    suffix test on the lowercased name against a comparison of the extension
    that ignores case. *)
Lemma capital_lower a : capital (lower_ascii a) = capital a.
Proof. by destruct a as [[] [] [] [] [] [] [] []]. Qed.

Lemma lower_capital a : lower_ascii (capital a) = lower_ascii a.
Proof. by destruct a as [[] [] [] [] [] [] [] []]. Qed.

Lemma lower_ascii_dot a : Ascii.eqb (lower_ascii a) "." = Ascii.eqb a ".".
Proof. by destruct a as [[] [] [] [] [] [] [] []]. Qed.

Lemma eq_nocase_lower s t : eq_nocase s t = true ↔ lower s = lower t.
Proof.
  revert t. induction s as [|a s IH]; intros [|b t]; simpl; try done.
  rewrite andb_true_iff, IH, Ascii.eqb_eq. split.
  - intros [Hc ->]. f_equal.
    by rewrite <- (lower_capital a), Hc, lower_capital.
  - intros [= Hl Hr]. split; [|done].
    by rewrite <- (capital_lower a), Hl, capital_lower.
Qed.

Lemma extension_lower n : extension (lower n) = option_map lower (extension n).
Proof.
  induction n as [|a n IH]; [done|]. simpl. rewrite IH.
  destruct (extension n); simpl; [done|].
  rewrite lower_ascii_dot. by destruct (Ascii.eqb a ".").
Qed.

Lemma extension_split m e :
  extension m = Some e → ∃ pre, m = (pre ++ String "." e)%string.
Proof.
  induction m as [|a m IH]; [done|]. simpl.
  destruct (extension m) as [e'|] eqn:He.
  - intros [= ->]. destruct (IH eq_refl) as [pre ->]. by exists (String a pre).
  - destruct (Ascii.eqb_spec a "."); [|done]. intros [= ->]. subst a.
    by exists "".
Qed.

Lemma extension_app pre e :
  extension e = None → extension (pre ++ String "." e) = Some e.
Proof.
  intros He. induction pre as [|a pre IH].
  - change ("" ++ String "." e)%string with (String "." e). simpl.
    by rewrite He.
  - rewrite string_app_cons. simpl. by rewrite IH.
Qed.

Lemma endswith_extension m e :
  extension e = None →
  endswith m (String "." e) = true ↔ extension m = Some e.
Proof.
  intros He. split.
  - intros [pre ->]%endswith_decompose. by apply extension_app.
  - intros [pre ->]%extension_split. apply endswith_app.
Qed.

Lemma endswith_lower_extension n e :
  extension e = None → lower e = e →
  endswith (lower n) (String "." e) =
    match extension n with Some x => eq_nocase x e | None => false end.
Proof.
  intros He Hl. apply Bool.eq_true_iff_eq.
  rewrite (endswith_extension _ _ He), extension_lower.
  destruct (extension n) as [x|]; simpl; [|done].
  rewrite eq_nocase_lower, Hl. split; [by intros [= ->]|by intros ->].
Qed.

Lemma image_name_by_extension n : is_image_name n = has_image_extension n.
Proof.
  unfold is_image_name, endswith_any, has_image_extension, image_suffixes,
    image_extensions. simpl existsb.
  rewrite !endswith_lower_extension by done.
  by destruct (extension n).
Qed.

Section RenderClaims.
Variable w : os_world.
Variable images_root : string.

(** C7 (amended).  On data that respects the annotations, and when the
    console prints each warning it is handed, [render_article] reaches the
    template whatever is on disk.  Each review then holds, in the declared
    order, exactly the declared paths that are not empty and whose file
    exists under the images root, made relative to it; an empty path is
    passed over without a warning, wherever it leads.  The lines printed are
    the warnings of the non-empty paths whose file is missing, the hero
    image first, and a hero image that is not on disk is handed to the
    template as [None]. *)
Theorem review_images_filtered g data tpl :
  load_template w (templates_dir g) "article.html.j2" = Some tpl →
  relpath_nonempty w →
  is_opt_str (hero_image (article data)) = true →
  is_opt_str (gallery_dir data) = true →
  Forall (λ r, is_str_list (images r) = true) (reviews data) →
  Forall (prints w) (warnings_of w images_root data) →
  ∃ data' lines hero gallery,
    render_article w g data images_root =
      (data', (lines, tpl (ArticleContext (_load_styles w g) (article data)
                             hero gallery (reviews data')))) ∧
    Forall2 (λ r r',
               images r' =
                 VList (map VStr
                          (map (rel_to_root w images_root)
                               (filter (λ p, p ≠ "" ∧ on_disk w images_root p)
                                       (paths_of (images r))))))
            (reviews data) (reviews data') ∧
    lines = warnings_of w images_root data ∧
    (∀ r p, r ∈ reviews data → p ∈ paths_of (images r) → p ≠ "" →
            ¬ on_disk w images_root p →
            missing_image (path_join images_root p) ∈ lines) ∧
    (∀ h, hero_image (article data) = VStr h →
          ¬ on_disk w images_root h → hero = VNull).
Proof.
  intros Htpl Hrel Hhero Hgal Hrs Hpr.
  destruct (render_article_typed w images_root g data tpl
              Htpl Hrel Hhero Hgal Hrs Hpr) as (gallery & _ & Hrender).
  eexists _, _, _, gallery. split; [exact Hrender|]. simpl.
  split; [|split; [done|split]].
  - apply Forall2_fmap_r, Forall_Forall2_diag, Forall_forall.
    by intros r _.
  - intros r p Hr Hp Hne Hmiss. apply elem_of_app. right.
    apply list_elem_of_In, in_concat.
    exists (missing_lines w images_root (paths_of (images r))). split.
    + apply (in_map (λ r, missing_lines w images_root (paths_of (images r)))).
      by apply list_elem_of_In.
    + unfold missing_lines.
      apply (in_map (λ p, missing_image (path_join images_root p))).
      apply list_elem_of_In, list_elem_of_filter. by split.
  - intros h Hh Hmiss. rewrite Hh. simpl.
    rewrite decide_False; [done|]. by intros [_ ?].
Qed.

(** C8.  When the gallery directory of the article exists under the images
    root, the gallery list handed to the template is made of the directory
    entries whose extension (what follows the last dot of the name) is
    [jpg], [jpeg], [png], [gif] or [webp] in any mix of capital and small
    letters, each exactly as often as it is listed, in ascending order of
    the names, each made relative to the images root.  The template is
    reached on data that respects the annotations when the console prints
    the warnings of the missing images. *)
Theorem gallery_enumeration g data tpl gdir :
  load_template w (templates_dir g) "article.html.j2" = Some tpl →
  relpath_nonempty w →
  is_opt_str (hero_image (article data)) = true →
  Forall (λ r, is_str_list (images r) = true) (reviews data) →
  Forall (prints w) (warnings_of w images_root data) →
  gallery_dir data = VStr gdir →
  gdir ≠ "" →
  path_isdir w (path_join images_root gdir) = true →
  ∃ names data' lines hero,
    render_article w g data images_root =
      (data', (lines,
               tpl (ArticleContext (_load_styles w g) (article data) hero
                      (map (λ name,
                              path_relpath w
                                (path_join (path_join images_root gdir) name)
                                images_root) names)
                      (reviews data')))) ∧
    names ≡ₚ filter (λ n, has_image_extension n = true)
               (listdir w (path_join images_root gdir)) ∧
    StronglySorted name_le names.
Proof.
  intros Htpl Hrel Hhero Hrs Hpr Hg Hne Hdir.
  assert (Hgal : is_opt_str (gallery_dir data) = true) by by rewrite Hg.
  destruct (render_article_typed w images_root g data tpl
              Htpl Hrel Hhero Hgal Hrs Hpr) as (gallery & Hgl & Hrender).
  rewrite Hg in Hgl. unfold gallery_of in Hgl. simpl in Hgl.
  apply String.eqb_neq in Hne. rewrite Hne, Hdir in Hgl. simpl in Hgl.
  injection Hgl as <-.
  eexists _, _, _, _. split; [exact Hrender|].
  split; [|apply StronglySorted_filter_names, sorted_strongly].
  rewrite sorted_perm.
  rewrite (filter_ext_elem (λ n, is_image_name n = true)
             (λ n, has_image_extension n = true)); [done|].
  intros n _. by rewrite image_name_by_extension.
Qed.

(** C10.  [render_article] changes the [ArticleData] it is given: once the
    template is found, and when the console prints the warnings of the
    missing images, the object is left with every review's [images] replaced
    by the resolved list, while the article, the gallery directory and the
    other fields of each review are as they were. *)
Theorem render_article_rewrites_images g data tpl :
  load_template w (templates_dir g) "article.html.j2" = Some tpl →
  relpath_nonempty w →
  is_opt_str (hero_image (article data)) = true →
  is_opt_str (gallery_dir data) = true →
  Forall (λ r, is_str_list (images r) = true) (reviews data) →
  Forall (prints w) (warnings_of w images_root data) →
  let data' := (render_article w g data images_root).1 in
  article data' = article data ∧
  gallery_dir data' = gallery_dir data ∧
  Forall2 (λ r r',
             images r' =
               VList (map VStr
                        (resolved_paths w images_root (paths_of (images r)))) ∧
             author r' = author r ∧ rating r' = rating r ∧
             review_date r' = review_date r ∧ content r' = content r ∧
             pros r' = pros r ∧ cons r' = cons r)
          (reviews data) (reviews data').
Proof.
  intros Htpl Hrel Hhero Hgal Hrs Hpr.
  destruct (render_article_typed w images_root g data tpl
              Htpl Hrel Hhero Hgal Hrs Hpr) as (gallery & _ & ->).
  simpl. repeat split.
  apply Forall2_fmap_r, Forall_Forall2_diag, Forall_forall.
  by intros r _.
Qed.

End RenderClaims.

(** ** The loader on the sample inputs *)

(** C1 (as stated) fails: [notes.txt] has none of the three extensions, yet
    [load_article_data] parses it and returns the article. *)
Lemma load_txt_is_accepted :
  has_known_extension "notes.txt" = false ∧
  load_article_data (B := sample_builtins) notes_fs "notes.txt" =
    Ok {| article := {| title := VStr "T"; slug := VStr "s";
                        description := VNull; date := VNull;
                        tags := VList []; hero_image := VNull;
                        cover_credit := VNull |};
          reviews := [];
          gallery_dir := VNull |}.
Proof. split; vm_compute; reflexivity. Qed.

Lemma load_unknown_extension_reads_json_witness :
  load_article_data (B := sample_builtins) notes_fs "notes.txt" =
    build_article_data (B := sample_builtins) notes_tree.
Proof.
  apply (load_unknown_extension_reads_json (B := sample_builtins)
           notes_fs "notes.txt"
           {| yaml_of := None; json_of := Some notes_tree |});
    vm_compute; reflexivity.
Defined.

Lemma load_missing_field_raises_witness :
  load_article_data (B := sample_builtins) no_slug_fs "post.yaml" =
    Raise TypeError.
Proof.
  apply (load_missing_field_raises (B := sample_builtins)
           no_slug_fs "post.yaml"
           {| yaml_of := Some (VDict [("article", VDict [("title", VStr "T")])]);
              json_of := None |}
           (VDict [("article", VDict [("title", VStr "T")])]));
    vm_compute; reflexivity.
Defined.

Lemma load_rating_lenient_witness :
  ∃ data,
    load_article_data (B := sample_builtins) rated_fs "in.json" = Ok data ∧
    map rating (reviews data) =
      [VNull; VFloat (S754_finite false 4503599627370496 (-50))].
Proof.
  apply (load_rating_lenient (B := sample_builtins) rated_fs "in.json"
           {| yaml_of := None; json_of := Some rated_tree |}
           [("article", VDict [("title", VStr "T"); ("slug", VStr "s")]);
            ("reviews",
             VList [VDict [("author", VStr "ann"); ("rating", VStr "great")];
                    VDict [("author", VStr "bob"); ("rating", VInt 4)]])]
           (VDict [("title", VStr "T"); ("slug", VStr "s")])
           [VDict [("author", VStr "ann"); ("rating", VStr "great")];
            VDict [("author", VStr "bob"); ("rating", VInt 4)]]);
    vm_compute; reflexivity.
Defined.

(** ** The properties on the sample inputs *)

Lemma sample_relpath_nonempty : relpath_nonempty sample_world.
Proof.
  intros a b. simpl. unfold sample_relpath.
  destruct (String.prefix _ _); [|done].
  by destruct (substring _ _ _).
Qed.

Lemma manifest_round_trip_witness :
  ∃ out' earlier m',
    write_manifest (B := sample_builtins) one_entry_out meta_B = (out', Ok tt) ∧
    collect_articles out' = ([], Ok (earlier ++ [m'])%list) ∧
    Forall (λ x, py_eq (slug x) (slug meta_B) = false) earlier ∧
    title m' = title meta_B ∧ slug m' = slug meta_B ∧
    description m' = description meta_B ∧ date m' = date meta_B ∧
    tags m' = tags meta_B.
Proof.
  apply (manifest_round_trip (B := sample_builtins) one_entry_out
           [manifest_entry (B := sample_builtins) meta_A] meta_B).
  - reflexivity.
  - repeat split; vm_compute; reflexivity.
Defined.

Lemma upsert_moves_entry_to_end_witness :
  let r1 := write_manifest (B := sample_builtins) ∅ meta_A in
  let r2 := write_manifest (B := sample_builtins) r1.1 meta_B in
  let r3 := write_manifest (B := sample_builtins) r2.1 meta_A2 in
  r1.2 = Ok tt ∧ r2.2 = Ok tt ∧ r3.2 = Ok tt ∧
  r3.1 !! "manifest.json" =
    Some (JsonFile (VList [manifest_entry (B := sample_builtins) meta_B;
                           manifest_entry (B := sample_builtins) meta_A2])).
Proof.
  apply (upsert_moves_entry_to_end (B := sample_builtins) ∅
           meta_A meta_B meta_A2).
  - reflexivity.
  - reflexivity.
  - reflexivity.
  - reflexivity.
  - simpl. discriminate.
  - reflexivity.
Defined.

Lemma write_manifest_twice_witness :
  let r1 := write_manifest (B := sample_builtins) doubled_out meta_A2 in
  let r2 := write_manifest (B := sample_builtins) r1.1 meta_A2 in
  r1.2 = Ok tt ∧ r2.2 = Ok tt ∧ r2.1 = r1.1 ∧
  ∃ stored, r2.1 !! "manifest.json" = Some (JsonFile (VList stored)) ∧
            length (filter (λ i, has_slug (slug meta_A2) i = true) stored) = 1.
Proof.
  apply (write_manifest_twice (B := sample_builtins) doubled_out
           [manifest_entry (B := sample_builtins) meta_A;
            manifest_entry (B := sample_builtins) meta_B;
            manifest_entry (B := sample_builtins) meta_A] meta_A2).
  - reflexivity.
  - split; vm_compute; reflexivity.
Defined.

(** The sample console prints the two warnings of the sample article. *)
Lemma sample_warnings_print :
  Forall (prints sample_world) (warnings_of sample_world "/img" sample_data).
Proof. repeat constructor. Qed.

(** C7 (as stated) fails: the review lists [a.jpg] and an empty path; both
    resolve to something that exists under the root, yet the review is
    left with [a.jpg] alone, and no warning is printed for the path that
    was dropped. *)
Lemma empty_image_path_is_dropped :
  filter (λ p, on_disk sample_world "/img" p)
         (paths_of (images blank_path_review)) = ["a.jpg"; ""] ∧
  render_article sample_world sample_generator blank_path_data "/img" =
    ({| article := meta_A;
        reviews := [set_images blank_path_review (VList [VStr "a.jpg"])];
        gallery_dir := VNull |},
     ([], Ok "")).
Proof. split; vm_compute; reflexivity. Qed.

Lemma review_images_filtered_witness :
  ∃ data' lines hero gallery,
    render_article sample_world sample_generator
      sample_data "/img" =
      (data', (lines,
               sample_template
                 (ArticleContext (_load_styles sample_world sample_generator)
                    (article sample_data) hero gallery (reviews data')))) ∧
    Forall2 (λ r r',
               images r' =
                 VList (map VStr
                          (map (rel_to_root sample_world "/img")
                               (filter (λ p, p ≠ "" ∧ on_disk sample_world "/img" p)
                                       (paths_of (images r))))))
            (reviews sample_data) (reviews data') ∧
    lines = warnings_of sample_world "/img" sample_data ∧
    (∀ r p, r ∈ reviews sample_data → p ∈ paths_of (images r) → p ≠ "" →
            ¬ on_disk sample_world "/img" p →
            missing_image (path_join "/img" p) ∈ lines) ∧
    (∀ h, hero_image (article sample_data) = VStr h →
          ¬ on_disk sample_world "/img" h → hero = VNull).
Proof.
  apply (review_images_filtered sample_world "/img"
           sample_generator sample_data sample_template).
  - reflexivity.
  - exact sample_relpath_nonempty.
  - reflexivity.
  - reflexivity.
  - repeat constructor.
  - exact sample_warnings_print.
Defined.

Lemma gallery_enumeration_witness :
  ∃ names data' lines hero,
    render_article sample_world sample_generator
      sample_data "/img" =
      (data', (lines,
               sample_template
                 (ArticleContext (_load_styles sample_world sample_generator)
                    (article sample_data) hero
                    (map (λ name,
                            path_relpath sample_world
                              (path_join (path_join "/img" "gal") name) "/img")
                         names)
                    (reviews data')))) ∧
    names ≡ₚ filter (λ n, has_image_extension n = true)
               (listdir sample_world (path_join "/img" "gal")) ∧
    StronglySorted name_le names.
Proof.
  apply (gallery_enumeration sample_world "/img"
           sample_generator sample_data sample_template "gal").
  - reflexivity.
  - exact sample_relpath_nonempty.
  - reflexivity.
  - repeat constructor.
  - exact sample_warnings_print.
  - reflexivity.
  - discriminate.
  - reflexivity.
Defined.

Lemma render_article_rewrites_images_witness :
  let data' := (render_article sample_world
                  sample_generator sample_data "/img").1 in
  article data' = article sample_data ∧
  gallery_dir data' = gallery_dir sample_data ∧
  Forall2 (λ r r',
             images r' =
               VList (map VStr
                        (resolved_paths sample_world "/img"
                           (paths_of (images r)))) ∧
             author r' = author r ∧ rating r' = rating r ∧
             review_date r' = review_date r ∧ content r' = content r ∧
             pros r' = pros r ∧ cons r' = cons r)
          (reviews sample_data) (reviews data').
Proof.
  apply (render_article_rewrites_images sample_world
           "/img" sample_generator sample_data sample_template).
  - reflexivity.
  - exact sample_relpath_nonempty.
  - reflexivity.
  - reflexivity.
  - repeat constructor.
  - exact sample_warnings_print.
Defined.

(** The sample article renders to the gallery [a.jpg,b.png]; its review is
    left with [a.jpg] alone, and two warnings are printed: one for the hero
    image, one for [missing.png]. *)
Lemma sample_render :
  render_article sample_world sample_generator
    sample_data "/img" =
    ({| article := meta_B;
        reviews := [set_images sample_review (VList [VStr "a.jpg"])];
        gallery_dir := VStr "gal" |},
     ([missing_image "/img/hero.jpg"; missing_image "/img/missing.png"],
      Ok "gal/a.jpg,gal/b.png")).
Proof. vm_compute. reflexivity. Qed.

(** * Further properties of the loader *)

Lemma kw_known_false fields d k :
  k ∈ dict_keys d → k ∉ fields → kw_known fields d = false.
Proof.
  intros Hk Hf. unfold kw_known. apply not_true_is_false. intros Hall.
  rewrite forallb_forall in Hall.
  specialize (Hall k ltac:(by apply list_elem_of_In)).
  apply existsb_exists in Hall as (x & Hx & Heq).
  apply String.eqb_eq in Heq. subst x. by apply list_elem_of_In in Hx.
Qed.

Section LoaderExtras.
Context {B : Builtins}.

(** What a successful [normalize_key] leaves under its key and elsewhere. *)
Lemma normalize_key_inv k f d d' :
  normalize_key k f d = Ok d' →
  dict_keys d' = dict_keys d ∧
  (∀ k', k' ≠ k → dict_get k' d' = dict_get k' d) ∧
  match dict_get k d with
  | None => dict_get k d' = None
  | Some VNull => dict_get k d' = Some VNull
  | Some v => ∃ v', f v = Ok v' ∧ dict_get k d' = Some v'
  end.
Proof.
  unfold normalize_key. destruct (dict_get k d) as [v|] eqn:Hk.
  - assert (Hcase : v = VNull ∨ v ≠ VNull) by (destruct v; auto).
    destruct Hcase as [->|Hv].
    + intros [= <-]. by rewrite Hk.
    + destruct (f v) as [v'|e] eqn:Hf.
      * intros Hd. assert (d' = dict_set k v' d) as ->
          by (destruct v; simpl in Hd; congruence).
        split; [by eapply dict_keys_set|].
        split; [intros k' Hk'; by apply dict_get_set_ne|].
        destruct v; try done; exists v'; by rewrite dict_get_set_eq.
      * intros Hd. destruct v; simpl in Hd; congruence.
  - intros [= <-]. by rewrite Hk.
Qed.

(** X1.  A name that ends in [.yaml] or [.yml], in any mix of upper and
    lower case, is read with the YAML parser alone: the outcome is that of
    the YAML tree, or [YAMLError] when the text is not YAML, whatever the
    JSON parser would make of the file. *)
Theorem yaml_suffix_any_case fs stem ext f :
  lower ext = ".yaml" ∨ lower ext = ".yml" →
  fs !! (stem ++ ext)%string = Some f →
  load_article_data fs (stem ++ ext) =
    match yaml_of f with
    | Some raw => build_article_data raw
    | None => Raise YAMLError
    end.
Proof.
  intros Hext Hf. unfold load_article_data. rewrite Hf.
  assert (Hy : is_yaml_path (stem ++ ext) = true).
  { apply endswith_any_lower_app. destruct Hext as [-> | ->]; set_solver. }
  rewrite Hy. by destruct (yaml_of f).
Qed.

Lemma ArticleMeta_init_fields kw m :
  ArticleMeta_init kw = Ok m →
  kw_known ArticleMeta_fields kw = true ∧
  dict_get "title" kw = Some (title m) ∧ dict_get "slug" kw = Some (slug m) ∧
  description m = kw_default "description" VNull kw ∧
  date m = kw_default "date" VNull kw ∧
  tags m = kw_default "tags" (VList []) kw ∧
  hero_image m = kw_default "hero_image" VNull kw ∧
  cover_credit m = kw_default "cover_credit" VNull kw.
Proof.
  unfold ArticleMeta_init. destruct (kw_known _ _); [|done].
  destruct (dict_get "title" kw); [|done].
  destruct (dict_get "slug" kw); [|done].
  by intros [= <-].
Qed.

Lemma Review_init_fields kw r :
  Review_init kw = Ok r →
  kw_known Review_fields kw = true ∧
  dict_get "author" kw = Some (author r) ∧
  rating r = kw_default "rating" VNull kw ∧
  review_date r = kw_default "date" VNull kw ∧
  content r = kw_default "content" (VStr "") kw ∧
  pros r = kw_default "pros" (VList []) kw ∧
  cons r = kw_default "cons" (VList []) kw ∧
  images r = kw_default "images" (VList []) kw.
Proof.
  unfold Review_init. destruct (kw_known _ _); [|done].
  destruct (dict_get "author" kw); [|done].
  by intros [= <-].
Qed.

Lemma rbind_ok {X Y} (r : result X) (k : X → result Y) y :
  rbind r k = Ok y → ∃ x, r = Ok x ∧ k x = Ok y.
Proof. destruct r; simpl; [eauto|done]. Qed.

Lemma mapM_Forall2 {X Y} (f : X → result Y) l ys :
  mapM f l = Ok ys → Forall2 (λ x y, f x = Ok y) l ys.
Proof.
  revert ys. induction l as [|x l IH]; simpl; intros ys.
  - intros [= <-]. constructor.
  - intros (y & Hy & (ys' & Hys & [= <-])%rbind_ok)%rbind_ok.
    constructor; [done|by apply IH].
Qed.

(** The article part of [build_article_data], taken apart. *)
Lemma build_article_data_inv raw data :
  build_article_data raw = Ok data →
  ∃ top a d0 d1 d2 rs,
    raw = VDict top ∧ dict_get "article" top = Some a ∧
    py_dict a = Ok d0 ∧
    normalize_key "date" str_date d0 = Ok d1 ∧
    normalize_key "tags" str_list d1 = Ok d2 ∧
    ArticleMeta_init d2 = Ok (article data) ∧
    py_iter (kw_default "reviews" (VList []) top) = Ok rs ∧
    mapM build_review rs = Ok (reviews data) ∧
    gallery_dir data = kw_default "gallery_dir" VNull top.
Proof.
  unfold build_article_data. destruct raw as [| | | | | |?|top]; try done.
  destruct (dict_get "article" top) as [a|] eqn:Ha; [|done].
  intros (d0 & H0 & (d1 & H1 & (d2 & H2 & (m & Hm & (rs & Hrs &
            (rvs & Hrvs & [= <-])%rbind_ok)%rbind_ok)%rbind_ok)%rbind_ok
         )%rbind_ok)%rbind_ok.
  by exists top, a, d0, d1, d2, rs.
Qed.

Lemma build_review_inv r rv :
  build_review r = Ok rv →
  ∃ d0 d1 d2 d3 d4,
    py_dict r = Ok d0 ∧
    normalize_key "date" str_date d0 = Ok d1 ∧
    normalize_key "rating" lenient_float d1 = Ok d2 ∧
    normalize_key "pros" str_list d2 = Ok d3 ∧
    normalize_key "cons" str_list d3 = Ok d4 ∧
    Review_init d4 = Ok rv.
Proof.
  unfold build_review.
  intros (d0 & H0 & (d1 & H1 & (d2 & H2 & (d3 & H3 & (d4 & H4 & Hr
         )%rbind_ok)%rbind_ok)%rbind_ok)%rbind_ok)%rbind_ok.
  by exists d0, d1, d2, d3, d4.
Qed.

Lemma str_list_typed v v' : str_list v = Ok v' → is_str_list v' = true.
Proof.
  unfold str_list. intros (items & _ & [= <-])%rbind_ok. simpl.
  induction items as [|x l IH]; simpl; done.
Qed.

Lemma normalized_opt_str d d' k :
  normalize_key k str_date d = Ok d' →
  is_opt_str (kw_default k VNull d') = true.
Proof.
  intros (_ & _ & Hk)%normalize_key_inv. unfold kw_default.
  destruct (dict_get k d) as [v|]; [|by rewrite Hk].
  destruct v; try (destruct Hk as (v' & [= <-] & ->); done); by rewrite Hk.
Qed.

Lemma normalized_opt_str_list d d' k dflt :
  is_opt_str_list dflt = true →
  normalize_key k str_list d = Ok d' →
  is_opt_str_list (kw_default k dflt d') = true.
Proof.
  intros Hd (_ & _ & Hk)%normalize_key_inv. unfold kw_default.
  destruct (dict_get k d) as [v|]; [|by rewrite Hk].
  destruct v; try (by rewrite Hk);
    destruct Hk as (v' & Hv' & ->); apply str_list_typed in Hv';
    by destruct v'.
Qed.

Lemma normalized_opt_float d d' k :
  normalize_key k lenient_float d = Ok d' →
  is_opt_float (kw_default k VNull d') = true.
Proof.
  intros (_ & _ & Hk)%normalize_key_inv. unfold kw_default.
  destruct (dict_get k d) as [v|]; [|by rewrite Hk].
  destruct v; try (by rewrite Hk);
    destruct Hk as (v' & [= <-] & ->); unfold try_except, rbind;
    repeat case_match; by simplify_eq.
Qed.

Lemma build_review_normalized r rv :
  build_review r = Ok rv → review_normalized rv = true.
Proof.
  intros (d0 & d1 & d2 & d3 & d4 & _ & H1 & H2 & H3 & H4 & Hr)%build_review_inv.
  apply Review_init_fields in Hr as (_ & _ & Hrat & Hdate & _ & Hpros & Hcons & _).
  destruct (normalize_key_inv _ _ _ _ H2) as (_ & G2 & _).
  destruct (normalize_key_inv _ _ _ _ H3) as (_ & G3 & _).
  destruct (normalize_key_inv _ _ _ _ H4) as (_ & G4 & _).
  unfold review_normalized. rewrite Hrat, Hdate, Hpros, Hcons.
  repeat (apply andb_true_intro; split).
  - unfold kw_default. rewrite G4, G3 by done.
    by apply (normalized_opt_float d1 d2 "rating").
  - unfold kw_default. rewrite G4, G3, G2 by done.
    by apply (normalized_opt_str d0 d1 "date").
  - unfold kw_default. rewrite G4 by done.
    by apply (normalized_opt_str_list d2 d3 "pros").
  - by apply (normalized_opt_str_list d3 d4 "cons").
Qed.

(** X2.  Whatever the input, the record [load_article_data] returns has a
    date that is [None] or a string, tags that are [None] or a list of
    strings, and in every review a rating that is [None] or a float, a date
    that is [None] or a string, and pros and cons that are [None] or lists
    of strings. *)
Theorem loaded_fields_normalized fs p data :
  load_article_data fs p = Ok data →
  is_opt_str (date (article data)) = true ∧
  is_opt_str_list (tags (article data)) = true ∧
  Forall (λ r, review_normalized r = true) (reviews data).
Proof.
  unfold load_article_data. destruct (fs !! p) as [f|]; [|done].
  intros (raw & _ & Hb)%rbind_ok.
  apply build_article_data_inv in Hb
    as (top & a & d0 & d1 & d2 & rs & _ & _ & _ & H1 & H2 & Hm & _ & Hrs & _).
  apply ArticleMeta_init_fields in Hm as (_ & _ & _ & _ & Hdate & Htags & _).
  destruct (normalize_key_inv _ _ _ _ H2) as (_ & G2 & _).
  rewrite Hdate, Htags. split; [|split].
  - unfold kw_default. rewrite G2 by done.
    by apply (normalized_opt_str d0 d1 "date").
  - by apply (normalized_opt_str_list d1 d2 "tags").
  - apply mapM_Forall2 in Hrs. clear -Hrs.
    induction Hrs as [|r rv l rvs Hr _ IH]; constructor; [|done].
    by apply build_review_normalized in Hr.
Qed.

(** X3.  What the loader makes of the article's [date] and [tags]: a date
    object becomes its ISO text, any other value its [str], a missing or
    null date stays [None]; the elements of [tags] become their [str] (a
    string is walked character by character), missing tags are the empty
    list, and null tags stay [None]. *)
Theorem article_date_and_tags fs p f top a data :
  fs !! p = Some f →
  parsed_as f p = Some (VDict top) →
  dict_get "article" top = Some (VDict a) →
  load_article_data fs p = Ok data →
  date (article data) =
    match dict_get "date" a with
    | None | Some VNull => VNull
    | Some (VDate iso) => VStr iso
    | Some v => VStr (py_str v)
    end ∧
  tags (article data) =
    match dict_get "tags" a with
    | None => VList []
    | Some VNull => VNull
    | Some v => VList (map (λ t, VStr (py_str t)) (try_except (py_iter v) []))
    end.
Proof.
  intros Hf Hp Ha. rewrite (load_article_data_parsed _ _ _ _ Hf Hp).
  intros (top' & a' & d0 & d1 & d2 & rs & [= <-] & Ha' & H0 & H1 & H2 & Hm & _
         )%build_article_data_inv.
  rewrite Ha in Ha'. injection Ha' as <-. simpl in H0. injection H0 as <-.
  apply ArticleMeta_init_fields in Hm as (_ & _ & _ & _ & -> & -> & _).
  destruct (normalize_key_inv _ _ _ _ H1) as (_ & G1 & D1).
  destruct (normalize_key_inv _ _ _ _ H2) as (_ & G2 & T2).
  unfold kw_default. rewrite G2 by done. rewrite G1 in T2 by done. split.
  - destruct (dict_get "date" a) as [v|]; [|by rewrite D1].
    destruct v; try (by rewrite D1);
      destruct D1 as (v' & [= <-] & ->); done.
  - destruct (dict_get "tags" a) as [v|]; [|by rewrite T2].
    destruct v; try (by rewrite T2);
      destruct T2 as (v' & Hv' & ->); unfold str_list in Hv';
      apply rbind_ok in Hv' as (items & Hit & [= <-]); by rewrite Hit.
Qed.

Lemma mapM_minimal_reviews authors :
  mapM build_review (map (λ au, VDict [("author", au)]) authors) =
    Ok (map minimal_review authors).
Proof.
  induction authors as [|au l IH]; [done|].
  simpl. rewrite IH. done.
Qed.

(** X4.  The smallest input: an article with only [title] and [slug], and
    reviews (if any) with only an [author].  The load returns; every
    optional field of the article is [None] and its tags are the empty
    list; every review has no rating, no date, empty content and empty
    lists; without a ["reviews"] key there are no reviews. *)
Theorem load_minimal_input fs p f top t s authors :
  fs !! p = Some f →
  parsed_as f p = Some (VDict top) →
  dict_get "article" top = Some (VDict [("title", t); ("slug", s)]) →
  kw_default "reviews" (VList []) top =
    VList (map (λ au, VDict [("author", au)]) authors) →
  load_article_data fs p =
    Ok {| article := mkArticleMeta t s VNull VNull (VList []) VNull VNull;
          reviews := map minimal_review authors;
          gallery_dir := kw_default "gallery_dir" VNull top |}.
Proof.
  intros Hf Hp Ha Hr. rewrite (load_article_data_parsed _ _ _ _ Hf Hp).
  unfold build_article_data. rewrite Ha, Hr. simpl.
  by rewrite mapM_minimal_reviews.
Qed.

(** X5.  A key of the article object that is not a field of [ArticleMeta]
    (a misspelt key, say) makes the load fail with [TypeError]. *)
Theorem load_unknown_article_key fs p f top a k :
  fs !! p = Some f →
  parsed_as f p = Some (VDict top) →
  dict_get "article" top = Some (VDict a) →
  k ∈ dict_keys a →
  k ∉ ArticleMeta_fields →
  load_article_data fs p = Raise TypeError.
Proof.
  intros Hf Hp Ha Hk Hnf. rewrite (load_article_data_parsed _ _ _ _ Hf Hp).
  unfold build_article_data. rewrite Ha. simpl.
  destruct (normalize_key_cases "date" str_date a str_date_raises)
    as [-> | (d1 & -> & K1 & _)]; [done|]. simpl.
  destruct (normalize_key_cases "tags" str_list d1 str_list_raises)
    as [-> | (d2 & -> & K2 & _)]; [done|]. simpl.
  unfold ArticleMeta_init. rewrite (kw_known_false _ d2 k); [done| |done].
  by rewrite K2, K1.
Qed.

(** X6.  A ["reviews"] value that cannot be iterated (null, a number, a
    boolean, a date) makes the load fail with [TypeError], even though a
    missing ["reviews"] key is accepted. *)
Theorem load_reviews_not_iterable fs p f top a v :
  fs !! p = Some f →
  parsed_as f p = Some (VDict top) →
  dict_get "article" top = Some a →
  article_shape_ok a = true →
  dict_get "reviews" top = Some v →
  is_ok (py_iter v) = false →
  load_article_data fs p = Raise TypeError.
Proof.
  intros Hf Hp Ha Hsa Hr Hv. rewrite (load_article_data_parsed _ _ _ _ Hf Hp).
  unfold build_article_data. rewrite Ha.
  destruct (build_article_meta_shape a Hsa) as [m Hm]. revert Hm.
  destruct (py_dict a) as [d0|]; simpl; [|done].
  destruct (normalize_key "date" str_date d0) as [d1|]; simpl; [|done].
  destruct (normalize_key "tags" str_list d1) as [d2|]; simpl; [|done].
  intros ->. simpl. unfold kw_default at 1. rewrite Hr.
  by destruct v.
Qed.

End LoaderExtras.

(** * Further properties of the manifest store *)

Lemma NoDup_only_element {X} (l : list X) (a : X) :
  NoDup l → (∀ x, x ∈ l ↔ x = a) → l = [a].
Proof.
  intros Hnd Hall. destruct l as [|x l].
  - exfalso. by apply (not_elem_of_nil a), Hall.
  - assert (x = a) as -> by (apply Hall; left).
    f_equal. destruct l as [|y l]; [done|]. exfalso.
    assert (y = a) as -> by (apply Hall; right; left).
    apply NoDup_cons in Hnd as [Hnot _]. apply Hnot. left.
Qed.

Lemma mapM_raises {X Y} (f : X → result Y) (l : list X) (e : exn) :
  (∀ x e', f x = Raise e' → e' = e) →
  (∃ x, x ∈ l ∧ is_ok (f x) = false) →
  mapM f l = Raise e.
Proof.
  intros Honly. induction l as [|x l IH]; intros (y & Hy & Hbad).
  - by apply not_elem_of_nil in Hy.
  - simpl. destruct (f x) as [v|e'] eqn:Hx; simpl.
    + rewrite IH; [done|]. exists y. split; [|done].
      apply elem_of_cons in Hy as [->|Hy]; [|done]. by rewrite Hx in Hbad.
    + by rewrite (Honly _ _ Hx).
Qed.

Lemma ArticleMeta_of_value_raises item e :
  ArticleMeta_of_value item = Raise e → e = TypeError.
Proof.
  destruct item; simpl; try congruence. unfold ArticleMeta_init.
  repeat case_match; congruence.
Qed.

Lemma read_sidecar_raises f e : read_sidecar f = Raise e → e = JSONDecodeError.
Proof.
  destruct f as [v| |]; simpl; try congruence.
  destruct (ArticleMeta_of_value v) as [m|e'] eqn:Hv; [done|].
  apply ArticleMeta_of_value_raises in Hv as ->. done.
Qed.

Lemma drop_slug_non_object s items :
  Exists (λ i, is_dict i = false) items →
  drop_slug s items = Raise AttributeError.
Proof.
  induction 1 as [i l Hi|i l _ IH]; simpl.
  - by destruct i.
  - destruct i; try done. simpl. by rewrite IH.
Qed.

Section StoreExtras.
Context {B : Builtins}.

Lemma write_manifest_elsewhere out m name :
  name ≠ "manifest.json" →
  name ≠ sidecar_name m →
  (write_manifest out m).1 !! name = out !! name.
Proof.
  intros Hn1 Hn2. unfold write_manifest, dump_json.
  repeat case_match; simplify_eq; simpl;
    rewrite ?lookup_insert_ne by done; done.
Qed.

(** X7.  [write_manifest] writes to two names only: whatever the directory
    holds and whether the call returns or raises, every file other than
    [manifest.json] and the sidecar of the article is left as it was. *)
Theorem write_manifest_frame out m name :
  name ≠ "manifest.json" →
  name ≠ sidecar_name m →
  (write_manifest out m).1 !! name = out !! name.
Proof.
  intros Hmanifest Hsidecar. unfold write_manifest.
  destruct (items <- py_iter (read_items out) ;; drop_slug (slug m) items)
    as [filtered|e]; [|done].
  unfold dump_json.
  destruct (json_dumpable (VList _)); cbv beta iota;
    [|simpl; by rewrite lookup_insert_ne].
  destruct (json_dumpable (manifest_entry m)); cbn [fst];
    by rewrite !lookup_insert_ne.
Qed.

(** X8.  After a call that returns, the sidecar [<slug>.meta.json] holds
    the very object that is the last element of the manifest. *)
Theorem sidecar_mirrors_manifest out items m :
  meta_typed m = true →
  manifest_is_array out items →
  ∃ stored,
    (write_manifest out m).1 !! "manifest.json" =
      Some (JsonFile (VList (stored ++ [manifest_entry m]))) ∧
    (write_manifest out m).1 !! sidecar_name m =
      Some (JsonFile (manifest_entry m)).
Proof.
  intros Hm Harr. rewrite (write_manifest_array _ _ _ Hm Harr). simpl.
  eexists. split.
  - unfold sidecar_name at 1.
    rewrite lookup_insert_ne by apply sidecar_is_not_manifest.
    by rewrite lookup_insert_eq.
  - by rewrite lookup_insert_eq.
Qed.

(** X9.  A manifest whose array holds anything that is not an object makes
    [write_manifest] raise [AttributeError] before it opens a file: the
    directory is left untouched. *)
Theorem write_manifest_non_object out items m :
  read_items out = VList items →
  Exists (λ i, is_dict i = false) items →
  write_manifest out m = (out, Raise AttributeError).
Proof.
  intros Hread Hbad. unfold write_manifest. rewrite Hread. simpl.
  by rewrite (drop_slug_non_object _ _ Hbad).
Qed.

(** X10.  A [manifest.json] that cannot be read as JSON is not an error:
    the call returns and the file is replaced by a manifest holding the new
    entry alone. *)
Theorem write_manifest_over_unreadable out m :
  meta_typed m = true →
  (∀ v, out !! "manifest.json" ≠ Some (JsonFile v)) →
  (write_manifest out m).2 = Ok tt ∧
  (write_manifest out m).1 !! "manifest.json" =
    Some (JsonFile (VList [manifest_entry m])).
Proof.
  intros Hm Hbad.
  assert (Harr : manifest_is_array out []).
  { split; [|done]. unfold read_items.
    destruct (out !! "manifest.json") as [[v| |]|] eqn:Ho; try done.
    by destruct (Hbad v). }
  rewrite (write_manifest_array _ _ _ Hm Harr). simpl. split; [done|].
  unfold sidecar_name.
  rewrite lookup_insert_ne by apply sidecar_is_not_manifest.
  by rewrite lookup_insert_eq.
Qed.

(** X11.  Reading the manifest for the index stops at the first entry that
    does not reconstruct: the articles are those of the entries before it,
    one warning is printed, and nothing after it is looked at. *)
Theorem read_manifest_stops_at_first_bad out pre bad post :
  out !! "manifest.json" = Some (JsonFile (VList (pre ++ bad :: post))) →
  forallb (λ i, is_ok (ArticleMeta_of_value i)) pre = true →
  is_ok (ArticleMeta_of_value bad) = false →
  ∃ ms, Forall2 (λ i m, ArticleMeta_of_value i = Ok m) pre ms ∧
        read_manifest_for_index out = (ms, [manifest_warning]).
Proof.
  intros Hout Hpre Hbad.
  destruct (append_until_error_app pre (bad :: post) Hpre) as (ms & HF & Happ).
  exists ms. split; [done|].
  unfold read_manifest_for_index. rewrite Hout. simpl py_iter. cbv beta iota.
  rewrite Happ. simpl.
  destruct (ArticleMeta_of_value bad); [done|]. simpl. by rewrite app_nil_r.
Qed.

Lemma stored_slugs_filter s items ss :
  forallb is_entry items = true →
  stored_slugs items = map VStr ss →
  stored_slugs (filter (λ i, has_slug (VStr s) i = false) items) =
    map VStr (filter (λ x, x ≠ s) ss).
Proof.
  revert ss. induction items as [|i l IH]; intros ss Hent Hss.
  - by destruct ss.
  - destruct ss as [|s0 ss]; [done|]. simpl in Hent, Hss.
    apply andb_prop in Hent as [Hi Hl]. injection Hss as Hs0 Hss.
    rewrite !filter_cons. destruct i as [| | | | | | |d]; try done.
    unfold has_slug. simpl in Hs0 |- *. rewrite Hs0. simpl.
    destruct (String.eqb_spec s0 s) as [->|Hne].
    + rewrite decide_False by done. rewrite decide_False by naive_solver.
      by apply IH.
    + rewrite decide_True by done. rewrite decide_True by done.
      simpl. rewrite Hs0. f_equal. by apply IH.
Qed.

Lemma stored_slugs_app l1 l2 :
  stored_slugs (l1 ++ l2) = (stored_slugs l1 ++ stored_slugs l2)%list.
Proof. unfold stored_slugs. apply map_app. Qed.

Lemma write_manifests_snoc out ms m :
  write_manifests out (ms ++ [m]) =
    (write_manifest (write_manifests out ms) m).1.
Proof. unfold write_manifests. by rewrite foldl_app. Qed.

(** The state kept by any run of [write_manifest] calls that starts on an
    empty manifest. *)
Lemma write_manifests_invariant out ms :
  read_items out = VList [] →
  Forall (λ m, meta_typed m = true) ms →
  ∃ items ss,
    manifest_is_sound (write_manifests out ms) items ∧
    stored_slugs items = map VStr ss ∧ NoDup ss ∧
    (∀ s, s ∈ ss ↔ ∃ m, m ∈ ms ∧ slug m = VStr s).
Proof.
  intros Hempty. induction ms as [|m ms IH] using rev_ind; intros Hty.
  - exists [], []. repeat split; try done; try constructor.
    + intros Hs. by apply not_elem_of_nil in Hs.
    + intros (m & Hm & _). by apply not_elem_of_nil in Hm.
  - apply Forall_app in Hty as [Hms Hm]. rewrite Forall_singleton in Hm.
    destruct (IH Hms) as (items & ss & Hsound & Hslugs & Hnd & Hin).
    assert (∃ s, slug m = VStr s) as [s Hs].
    { unfold meta_typed in Hm. repeat (apply andb_prop in Hm as [Hm ?]).
      destruct (slug m); try done. by eexists. }
    rewrite write_manifests_snoc.
    exists (filter (λ i, has_slug (slug m) i = false) items ++ [manifest_entry m])%list,
           (filter (λ x, x ≠ s) ss ++ [s])%list.
    split; [by apply write_manifest_keeps_sound|].
    split; [|split].
    + rewrite stored_slugs_app, map_app, Hs.
      rewrite (stored_slugs_filter s items ss); [|apply Hsound|done].
      simpl. by rewrite Hs.
    + apply NoDup_app. split; [by apply NoDup_filter|].
      split; [|apply NoDup_singleton].
      intros x [Hx _]%list_elem_of_filter ->%list_elem_of_singleton. done.
    + intros x. rewrite elem_of_app, list_elem_of_filter, list_elem_of_singleton.
      split.
      * intros [[_ Hx]| ->].
        -- apply Hin in Hx as (m' & Hm' & Hs'). exists m'.
           split; [apply elem_of_app; by left|done].
        -- exists m. split; [apply elem_of_app; right; by left|done].
      * intros (m' & Hm' & Hs').
        destruct (decide (x = s)) as [->|Hne]; [by right|]. left.
        split; [done|]. apply Hin.
        apply elem_of_app in Hm' as [Hm'|Hm'%list_elem_of_singleton].
        -- by exists m'.
        -- subst m'. congruence.
Qed.

(** X12.  Over any run of [write_manifest] calls that starts on an empty
    manifest, every call returns, and the manifest holds exactly one entry
    for each slug written so far: the stored slugs are pairwise distinct
    and are the slugs of the articles written. *)
Theorem write_manifests_unique_slugs out ms :
  read_items out = VList [] →
  Forall (λ m, meta_typed m = true) ms →
  (∀ k m, ms !! k = Some m →
          (write_manifest (write_manifests out (take k ms)) m).2 = Ok tt) ∧
  ∃ items ss,
    read_items (write_manifests out ms) = VList items ∧
    stored_slugs items = map VStr ss ∧ NoDup ss ∧
    (∀ s, s ∈ ss ↔ ∃ m, m ∈ ms ∧ slug m = VStr s).
Proof.
  intros Hempty Hty. split.
  - intros k m Hk.
    assert (Hpre : Forall (λ m, meta_typed m = true) (take k ms))
      by by apply Forall_take.
    destruct (write_manifests_invariant out (take k ms) Hempty Hpre)
      as (items & ss & [Harr _] & _).
    rewrite (write_manifest_array _ m items); [done| |done].
    eapply Forall_forall in Hty; [exact Hty|]. by eapply list_elem_of_lookup_2.
  - destruct (write_manifests_invariant out ms Hempty Hty)
      as (items & ss & [[Hread _] _] & Hslugs & Hnd & Hin).
    by exists items, ss.
Qed.

Lemma sidecar_name_suffix m : endswith (sidecar_name m) ".meta.json" = true.
Proof. apply endswith_app. Qed.

(** X13.  The sidecar is enough to rebuild the index.  Write an article
    into a directory without sidecars; if [manifest.json] is then lost or
    damaged while the other files stay, the index reconstruction still
    returns that article, read from [<slug>.meta.json], with its title,
    slug, description, date and tags. *)
Theorem index_rebuilt_from_sidecar d items m out2 :
  meta_typed m = true →
  manifest_is_array d items →
  (∀ name f, d !! name = Some f → endswith name ".meta.json" = false) →
  (∀ v, out2 !! "manifest.json" ≠ Some (JsonFile v)) →
  (∀ name, name ≠ "manifest.json" →
           out2 !! name = (write_manifest d m).1 !! name) →
  ∃ lines m',
    collect_articles out2 = (lines, Ok [m']) ∧
    title m' = title m ∧ slug m' = slug m ∧
    description m' = description m ∧ date m' = date m ∧ tags m' = tags m.
Proof.
  intros Hm Harr Hnone Hlost Hsame.
  assert (Hside : out2 !! sidecar_name m = Some (JsonFile (manifest_entry m))).
  { rewrite Hsame by apply sidecar_is_not_manifest.
    rewrite (write_manifest_array _ _ _ Hm Harr). simpl.
    by rewrite lookup_insert_eq. }
  assert (Hfilter :
    filter (λ nf : string * outfile, endswith nf.1 ".meta.json" = true)
           (map_to_list out2) = [(sidecar_name m, JsonFile (manifest_entry m))]).
  { apply NoDup_only_element; [apply NoDup_filter, NoDup_map_to_list|].
    intros [n f]. rewrite list_elem_of_filter, elem_of_map_to_list. simpl.
    split.
    - intros [Hend Hnf].
      destruct (decide (n = "manifest.json")) as [->|Hn1]; [done|].
      destruct (decide (n = sidecar_name m)) as [->|Hn2]; [congruence|].
      rewrite Hsame in Hnf by done.
      rewrite write_manifest_elsewhere in Hnf by done.
      apply Hnone in Hnf. congruence.
    - intros [= -> ->]. split; [apply sidecar_name_suffix|done]. }
  assert (Hread : ∃ lines, read_manifest_for_index out2 = ([], lines)).
  { unfold read_manifest_for_index.
    destruct (out2 !! "manifest.json") as [[v| |]|] eqn:Ho; try by eexists.
    by destruct (Hlost v). }
  destruct Hread as [lines Hread]. exists lines. eexists.
  split.
  - unfold collect_articles. rewrite Hread. unfold read_sidecars.
    rewrite Hfilter. simpl. done.
  - unfold meta_typed in Hm. repeat (apply andb_prop in Hm as [Hm ?]).
    simpl. repeat split; try done. by destruct (date m).
Qed.

(** X14.  When the manifest yields no article, one sidecar that cannot be
    read as JSON aborts the index reconstruction with a parse error: its
    [json.load] is not under the [try]. *)
Theorem unreadable_sidecar_aborts out name f :
  (read_manifest_for_index out).1 = [] →
  out !! name = Some f →
  endswith name ".meta.json" = true →
  (∀ v, f ≠ JsonFile v) →
  (collect_articles out).2 = Raise JSONDecodeError.
Proof.
  intros Hnone Hf Hend Hbad. unfold collect_articles.
  destruct (read_manifest_for_index out) as [arts lines]. simpl in Hnone.
  subst arts. simpl. unfold read_sidecars.
  rewrite (mapM_raises _ _ JSONDecodeError); [done| |].
  - intros [n g] e. apply read_sidecar_raises.
  - exists (name, f). split.
    + apply list_elem_of_filter. split; [done|]. by apply elem_of_map_to_list.
    + simpl. destruct f as [v| |]; [by destruct (Hbad v)|done|done].
Qed.

(** X15.  [write_index] writes [index.html] and nothing else.  When it
    raises, either nothing was written, or [index.html] was written and the
    exception is the one the console raised on the closing [Updated]
    line. *)
Theorem write_index_frame w out_dir out tdir adir :
  (∀ name, name ≠ "index.html" →
           (write_index w out_dir out tdir adir).1 !! name = out !! name) ∧
  (∀ e, (write_index w out_dir out tdir adir).2.2 = Raise e →
        (write_index w out_dir out tdir adir).1 = out ∨
        ∃ lines articles html,
          collect_articles out = (lines, Ok articles) ∧
          render_index w (mkGenerator tdir adir) articles = Ok html ∧
          (write_index w out_dir out tdir adir).1 =
            <["index.html" := Page html]> out ∧
          print_raises w (updated_line (path_join out_dir "index.html")) =
            Some e).
Proof.
  unfold write_index. destruct (collect_articles out) as [lg [arts|e0]];
    [|split; [done|by left]].
  destruct (render_index _ _ _) as [html|e1] eqn:Hri; simpl;
    [|split; [done|by left]].
  split; [intros name Hn; by rewrite lookup_insert_ne|].
  intros e. unfold rich_print.
  destruct (print_raises w _) as [e'|] eqn:Hp; simpl; [|done].
  intros [= ->]. right. by exists lg, arts, html.
Qed.

End StoreExtras.

(** * Further properties of the renderer *)

Lemma name_le_antisym : AntiSymm (=) name_le.
Proof. intros x y. apply String.leb_antisym. Qed.

Lemma sorted_of_permutation l1 l2 : l1 ≡ₚ l2 → sorted l1 = sorted l2.
Proof.
  intros Hp.
  apply (@StronglySorted_unique _ name_le name_le_antisym);
    [apply sorted_strongly..|].
  by rewrite !sorted_perm.
Qed.

Lemma resolve_reviews_frame w images_root rs :
  Forall2 (λ r r',
             author r' = author r ∧ rating r' = rating r ∧
             review_date r' = review_date r ∧ content r' = content r ∧
             pros r' = pros r ∧ cons r' = cons r ∧
             (images r' = images r ∨
              ∃ lines, resolve_images w images_root (images r) =
                         (lines, Ok (images r'))))
          rs (resolve_reviews w images_root rs).1.
Proof.
  induction rs as [|r rs IH]; simpl; [constructor|].
  destruct (resolve_images w images_root (images r)) as [lg [imgs|e]] eqn:Hr.
  - destruct (resolve_reviews w images_root rs) as [rs' [lg' o]]. simpl in *.
    constructor; [|done]. repeat split; try done. right. by exists lg.
  - simpl. apply Forall_Forall2_diag, Forall_forall. intros x _.
    repeat split; try done. by left.
Qed.

Section RenderExtras.
Variable w : os_world.
Variable images_root : string.

Lemma render_article_keeps_article g data :
  article (render_article w g data images_root).1 = article data.
Proof.
  unfold render_article.
  destruct (get_template w g "article.html.j2") as [tpl|e]; [|done].
  destruct (resolve_image w images_root (hero_image (article data)))
    as [lg [hero|e]]; [|done].
  destruct (gallery_of w images_root (gallery_dir data)) as [gal|e]; [|done].
  destruct (resolve_reviews w images_root (reviews data)) as [rs [lg' o]].
  by destruct o.
Qed.

(** X16.  Whatever it is given and however it ends, [render_article]
    leaves the article, the gallery directory and the number of reviews as
    they were, and in each review it changes nothing but [images], which is
    either untouched or the list [resolve_image] kept. *)
Theorem render_article_frame g data :
  article (render_article w g data images_root).1 = article data ∧
  gallery_dir (render_article w g data images_root).1 = gallery_dir data ∧
  Forall2 (λ r r',
             author r' = author r ∧ rating r' = rating r ∧
             review_date r' = review_date r ∧ content r' = content r ∧
             pros r' = pros r ∧ cons r' = cons r ∧
             (images r' = images r ∨
              ∃ lines, resolve_images w images_root (images r) =
                         (lines, Ok (images r'))))
          (reviews data) (reviews (render_article w g data images_root).1).
Proof.
  assert (Hsame : ∀ rs : list Review,
    Forall2 (λ r r',
               author r' = author r ∧ rating r' = rating r ∧
               review_date r' = review_date r ∧ content r' = content r ∧
               pros r' = pros r ∧ cons r' = cons r ∧
               (images r' = images r ∨
                ∃ lines, resolve_images w images_root (images r) =
                           (lines, Ok (images r')))) rs rs).
  { intros rs. apply Forall_Forall2_diag, Forall_forall. intros x _.
    repeat split; try done. by left. }
  unfold render_article.
  destruct (get_template w g "article.html.j2") as [tpl|e]; [|by simpl].
  destruct (resolve_image w images_root (hero_image (article data)))
    as [lg [hero|e]]; [|by simpl].
  destruct (gallery_of w images_root (gallery_dir data)) as [gal|e];
    [|by simpl].
  pose proof (resolve_reviews_frame w images_root (reviews data)) as Hfr.
  destruct (resolve_reviews w images_root (reviews data)) as [rs [lg' o]].
  simpl in Hfr. by destruct o.
Qed.

(** X17.  The output of [render_article] does not depend on the order in
    which the system lists a directory: two machines that differ only in
    the order of [os.listdir] give the same result. *)
Theorem render_article_listing_order ls g data :
  (∀ d, ls d ≡ₚ listdir w d) →
  render_article (with_listdir w ls) g data images_root =
    render_article w g data images_root.
Proof.
  intros Hls.
  assert (Hg : gallery_of (with_listdir w ls) images_root (gallery_dir data) =
               gallery_of w images_root (gallery_dir data)).
  { unfold gallery_of. simpl.
    destruct (py_truthy (gallery_dir data)); [|done].
    destruct (gallery_dir data); try done.
    destruct (path_isdir w _); [|done].
    by rewrite (sorted_of_permutation _ _ (Hls _)). }
  unfold render_article. rewrite Hg. reflexivity.
Qed.

(** X18.  A directory entry counts as an image exactly when its name is a
    stem (possibly empty) followed by an extension whose lowercase form is
    one of [.jpg], [.jpeg], [.png], [.gif], [.webp]. *)
Theorem image_name_iff name :
  is_image_name name = true ↔
  ∃ stem ext, name = (stem ++ ext)%string ∧ lower ext ∈ image_suffixes.
Proof.
  split.
  - intros (suffix & Hin & [pre Hpre]%endswith_decompose)%is_image_name_suffix.
    apply lower_split in Hpre as (stem & ext & -> & _ & <-).
    by exists stem, ext.
  - intros (stem & ext & -> & Hin). by apply endswith_any_lower_app.
Qed.

Lemma resolve_reviews_stops pre r post lg e :
  relpath_nonempty w →
  Forall (λ r, is_str_list (images r) = true) pre →
  Forall (prints w)
    (concat (map (λ r, missing_lines w images_root (paths_of (images r))) pre)) →
  resolve_images w images_root (images r) = (lg, Raise e) →
  resolve_reviews w images_root (pre ++ r :: post) =
    ((map (resolved_review w images_root) pre ++ r :: post)%list,
     ((concat (map (λ r, missing_lines w images_root (paths_of (images r))) pre)
       ++ lg)%list,
      Raise e)).
Proof.
  intros Hrel Hpre Hpr Hr. induction Hpre as [|x pre Hx _ IH]; simpl.
  - by rewrite Hr.
  - simpl in Hpr. apply Forall_app in Hpr as [Hpx Hpr].
    rewrite (str_list_paths _ Hx) at 1.
    rewrite resolve_images_strs by done. rewrite (IH Hpr).
    by rewrite app_assoc.
Qed.

Lemma lmapM_resolve_image_stops ps1 p ps2 e :
  Forall (prints w) (missing_lines w images_root ps1) →
  p ≠ "" →
  ¬ on_disk w images_root p →
  print_raises w (missing_image (path_join images_root p)) = Some e →
  lmapM (resolve_image w images_root) (map VStr (ps1 ++ p :: ps2)) =
    (missing_lines w images_root ps1, Raise e).
Proof.
  intros Hpr Hp Hd He. induction ps1 as [|q ps1 IH]; simpl.
  - rewrite resolve_image_cases, decide_True by done.
    by rewrite (rich_print_raises _ _ _ He).
  - rewrite missing_lines_cons in Hpr |- *.
    apply Forall_app in Hpr as [Hq Hps].
    rewrite (resolve_image_str _ _ _ Hq). simpl. by rewrite (IH Hps).
Qed.

(** X22.  A [gallery_dir] that names no directory under the images root is
    passed over in silence: when the console prints the warnings of the
    missing images, the template gets an empty gallery and no warning is
    printed for the directory. *)
Theorem missing_gallery_is_silent g data tpl gdir :
  load_template w (templates_dir g) "article.html.j2" = Some tpl →
  relpath_nonempty w →
  is_opt_str (hero_image (article data)) = true →
  Forall (λ r, is_str_list (images r) = true) (reviews data) →
  Forall (prints w) (warnings_of w images_root data) →
  gallery_dir data = VStr gdir →
  path_isdir w (path_join images_root gdir) = false →
  (render_article w g data images_root).2 =
    ((missing_lines w images_root (paths_of (VList [hero_image (article data)]))
      ++ concat (map (λ r, missing_lines w images_root (paths_of (images r)))
                     (reviews data)))%list,
     tpl (ArticleContext (_load_styles w g) (article data)
            (resolved_hero w images_root (hero_image (article data))) []
            (map (resolved_review w images_root) (reviews data)))).
Proof.
  intros Htpl Hrel Hhero Hrs Hpr Hg Hdir.
  assert (Hgal : is_opt_str (gallery_dir data) = true) by by rewrite Hg.
  destruct (render_article_typed w images_root g data tpl
              Htpl Hrel Hhero Hgal Hrs Hpr) as (gallery & Hgl & ->).
  rewrite Hg in Hgl. unfold gallery_of in Hgl. simpl in Hgl.
  rewrite Hdir in Hgl. simpl.
  destruct (negb (String.eqb gdir "")); by injection Hgl as <-.
Qed.

(** X23.  A review whose [images] cannot be iterated (null, say, which the
    loader lets through) makes [render_article] raise [TypeError] before
    the template is called, when the console prints the warnings that come
    before; the reviews that come before it have already been rewritten,
    that review and the later ones are as they were. *)
Theorem render_article_stops_at_bad_images g data tpl pre r post :
  load_template w (templates_dir g) "article.html.j2" = Some tpl →
  relpath_nonempty w →
  is_opt_str (hero_image (article data)) = true →
  is_opt_str (gallery_dir data) = true →
  reviews data = (pre ++ r :: post)%list →
  Forall (λ r, is_str_list (images r) = true) pre →
  Forall (prints w)
    (missing_lines w images_root (paths_of (VList [hero_image (article data)]))
     ++ concat (map (λ r, missing_lines w images_root (paths_of (images r)))
                    pre)) →
  is_ok (py_iter (images r)) = false →
  (render_article w g data images_root).2.2 = Raise TypeError ∧
  reviews (render_article w g data images_root).1 =
    (map (resolved_review w images_root) pre ++ r :: post)%list.
Proof.
  intros Htpl Hrel Hhero Hgal Hrs Hpre [Hph Hpp]%Forall_app Hr.
  assert (Hri : resolve_images w images_root (images r) = ([], Raise TypeError)).
  { unfold resolve_images. destruct (images r); try done. }
  unfold render_article, get_template. rewrite Htpl.
  rewrite (resolve_image_opt_str _ _ _ Hhero Hph).
  destruct (gallery_of_opt_str w images_root _ Hgal) as [gallery ->].
  rewrite Hrs, (resolve_reviews_stops pre r post _ _ Hrel Hpre Hpp Hri). done.
Qed.

(** X24.  A warning the console refuses ends the rendering.  When the
    first warning on which [print] raises is the one of a missing image of
    some review, [render_article] raises that exception and the template is
    not called; the warnings before it were printed, the reviews before
    that review are rewritten, that review and the later ones still hold
    their declared lists. *)
Theorem render_article_stops_at_refused_warning
    g data tpl pre r post ps1 p ps2 e :
  load_template w (templates_dir g) "article.html.j2" = Some tpl →
  relpath_nonempty w →
  is_opt_str (hero_image (article data)) = true →
  is_opt_str (gallery_dir data) = true →
  reviews data = (pre ++ r :: post)%list →
  Forall (λ r, is_str_list (images r) = true) pre →
  images r = VList (map VStr (ps1 ++ p :: ps2)) →
  Forall (prints w)
    (missing_lines w images_root (paths_of (VList [hero_image (article data)]))
     ++ concat (map (λ r, missing_lines w images_root (paths_of (images r)))
                    pre)
     ++ missing_lines w images_root ps1) →
  p ≠ "" →
  ¬ on_disk w images_root p →
  print_raises w (missing_image (path_join images_root p)) = Some e →
  (render_article w g data images_root).2 =
    ((missing_lines w images_root (paths_of (VList [hero_image (article data)]))
      ++ concat (map (λ r, missing_lines w images_root (paths_of (images r)))
                     pre)
      ++ missing_lines w images_root ps1)%list,
     Raise e) ∧
  reviews (render_article w g data images_root).1 =
    (map (resolved_review w images_root) pre ++ r :: post)%list.
Proof.
  intros Htpl Hrel Hhero Hgal Hrs Hpre Himgs Hpr Hp Hd He.
  apply Forall_app in Hpr as [Hph Hpr]. apply Forall_app in Hpr as [Hpp Hp1].
  assert (Hri : resolve_images w images_root (images r) =
                  (missing_lines w images_root ps1, Raise e)).
  { unfold resolve_images. rewrite Himgs. simpl.
    by rewrite (lmapM_resolve_image_stops _ _ _ _ Hp1 Hp Hd He). }
  unfold render_article, get_template. rewrite Htpl.
  rewrite (resolve_image_opt_str _ _ _ Hhero Hph).
  destruct (gallery_of_opt_str w images_root _ Hgal) as [gallery ->].
  rewrite Hrs, (resolve_reviews_stops pre r post _ _ Hrel Hpre Hpp Hri). done.
Qed.

End RenderExtras.

(** * Properties of the orchestrator *)

Lemma page_is_not_manifest s : (s ++ ".html")%string ≠ "manifest.json".
Proof.
  intros Heq. pose proof (endswith_app s ".html") as He.
  rewrite Heq in He. vm_compute in He. discriminate.
Qed.

Section OrchestratorExtras.
Context {B : Builtins}.
Variable w : os_world.

Lemma page_name_rendered g data images_root :
  page_name (render_article w g data images_root).1 = page_name data.
Proof.
  unfold page_name. by rewrite render_article_keeps_article.
Qed.

(** The index reconstruction right after a [write_manifest] that found a
    sound manifest, on any directory with the same [manifest.json]. *)
Lemma collect_after_write out out' items m :
  meta_typed m = true →
  manifest_is_sound out items →
  out' !! "manifest.json" = (write_manifest out m).1 !! "manifest.json" →
  ∃ earlier m',
    collect_articles out' = ([], Ok (earlier ++ [m'])%list) ∧
    Forall2 (λ i x, ArticleMeta_of_value i = Ok x)
            (filter (λ i, has_slug (slug m) i = false) items) earlier ∧
    title m' = title m ∧ slug m' = slug m ∧
    description m' = description m ∧ date m' = date m ∧ tags m' = tags m.
Proof.
  intros Hm [Harr Hsound] Hsame.
  rewrite (write_manifest_array out m items Hm Harr) in Hsame. simpl in Hsame.
  unfold sidecar_name in Hsame at 1.
  rewrite lookup_insert_ne in Hsame by apply sidecar_is_not_manifest.
  rewrite lookup_insert_eq in Hsame.
  set (kept := filter (λ i, has_slug (slug m) i = false) items) in *.
  assert (Hk : forallb (λ i, is_ok (ArticleMeta_of_value i)) kept = true)
    by by apply forallb_filter.
  destruct (append_until_error_app kept [manifest_entry m] Hk)
    as (earlier & HF & Happ).
  exists earlier. eexists. split; [|split; [exact HF|]].
  - unfold collect_articles, read_manifest_for_index. rewrite Hsame.
    simpl py_iter. cbv beta iota. rewrite Happ. simpl. by destruct earlier.
  - unfold meta_typed in Hm. repeat (apply andb_prop in Hm as [Hm ?]).
    simpl. repeat split; try done. by destruct (date m).
Qed.

(** X19.  [generate_article_html] writes at most the page [<slug>.html].
    When it returns, it has written under that name the text the template
    returned and answers [out_dir/<slug>.html].  When it raises, either the
    output directory is as it was, or the page was written and the
    exception is the one the console raised on the [Generated] line. *)
Theorem generate_article_html_effect fs out inp tdir adir root odir :
  (∀ e, (generate_article_html w fs out inp tdir adir root odir).2.2 = Raise e →
        (generate_article_html w fs out inp tdir adir root odir).1 = out ∨
        ∃ data html,
          load_article_data fs inp = Ok data ∧
          (render_article w (mkGenerator tdir adir) data root).2.2 = Ok html ∧
          (generate_article_html w fs out inp tdir adir root odir).1 =
            <[page_name data := Page html]> out ∧
          print_raises w (generated_line (path_join odir (page_name data))) =
            Some e) ∧
  (∀ path,
     (generate_article_html w fs out inp tdir adir root odir).2.2 = Ok path →
     ∃ data html,
       load_article_data fs inp = Ok data ∧
       (render_article w (mkGenerator tdir adir) data root).2.2 = Ok html ∧
       path = path_join odir (page_name data) ∧
       (generate_article_html w fs out inp tdir adir root odir).1 =
         <[page_name data := Page html]> out ∧
       print_raises w (generated_line path) = None).
Proof.
  unfold generate_article_html.
  destruct (load_article_data fs inp) as [data|e0]; [|split; [by left|done]].
  pose proof (page_name_rendered (mkGenerator tdir adir) data root) as Hpn.
  destruct (render_article w (mkGenerator tdir adir) data root)
    as [data' [lg [html|e1]]] eqn:Hr; simpl in Hpn;
    [|split; [by left|done]].
  rewrite Hpn. unfold rich_print.
  destruct (print_raises w (generated_line (path_join odir (page_name data))))
    as [e2|] eqn:Hp; simpl.
  - split; [|done]. intros e [= ->]. right. exists data, html.
    by rewrite Hr.
  - split; [done|]. intros path [= <-]. exists data, html. by rewrite Hr.
Qed.

(** X20.  One run of [main] with [--index], on an input that loads and
    renders, on a directory whose manifest is sound, and with a console
    that prints the three closing lines ([Generated], [Updated], [Done]):
    the run returns and leaves the page [<slug>.html], the manifest with
    the article moved or added at its end, the sidecar, and an [index.html]
    rendered from the earlier articles followed by this one, which agrees
    with the loaded article on title, slug, description, date and tags.
    The index is the last file written: for the slug [index] it takes the
    place of the page. *)
Theorem main_with_index fs out items args data html fi :
  arg_index args = true →
  load_article_data fs (arg_input args) = Ok data →
  meta_typed (article data) = true →
  (render_article w (mkGenerator (arg_templates args) (arg_assets args))
     data (arg_images_root args)).2.2 = Ok html →
  load_template w (arg_templates args) "index.html.j2" =
    Some (λ ctx, Ok (fi ctx)) →
  manifest_is_sound out items →
  prints w (generated_line (path_join (arg_out args) (page_name data))) →
  prints w (updated_line (path_join (arg_out args) "index.html")) →
  prints w (done_line (path_join (arg_out args) (page_name data))) →
  ∃ lines earlier m',
    main w fs out args =
      (<["index.html" :=
           Page (fi (IndexContext
                       (_load_styles w (mkGenerator (arg_templates args)
                                          (arg_assets args)))
                       (earlier ++ [m'])))]>
         (<[sidecar_name (article data) :=
              JsonFile (manifest_entry (article data))]>
            (<["manifest.json" :=
                 JsonFile
                   (VList (filter (λ i, has_slug (slug (article data)) i = false)
                                  items ++ [manifest_entry (article data)]))]>
               (<[page_name data := Page html]> out))),
       (lines, Ok tt)) ∧
    Forall2 (λ i x, ArticleMeta_of_value i = Ok x)
            (filter (λ i, has_slug (slug (article data)) i = false) items)
            earlier ∧
    title m' = title (article data) ∧ slug m' = slug (article data) ∧
    description m' = description (article data) ∧
    date m' = date (article data) ∧ tags m' = tags (article data).
Proof.
  intros Hidx Hload Hm Hrender Htpl [[Hread Hent] Hsound] Hp1 Hp2 Hp3.
  set (g := mkGenerator (arg_templates args) (arg_assets args)) in *.
  set (out1 := <[page_name data := Page html]> out).
  assert (Hsound1 : manifest_is_sound out1 items).
  { split; [split|]; [|done..]. unfold read_items, out1.
    rewrite lookup_insert_ne by apply page_is_not_manifest. exact Hread. }
  destruct (collect_after_write out1 (write_manifest out1 (article data)).1
              items (article data) Hm Hsound1 eq_refl)
    as (earlier & m' & Hcollect & HF & Hfields).
  exists ((render_article w g data (arg_images_root args)).2.1 ++
          [generated_line (path_join (arg_out args) (page_name data))] ++
          [updated_line (path_join (arg_out args) "index.html")] ++
          [done_line (path_join (arg_out args) (page_name data))])%list,
         earlier, m'.
  split; [|split; [exact HF|exact Hfields]].
  unfold main, generate_article_html. rewrite Hload. fold g.
  pose proof (page_name_rendered g data (arg_images_root args)) as Hpn.
  destruct (render_article w g data (arg_images_root args))
    as [data' [lg res]]. simpl in Hrender, Hpn |- *. subst res.
  rewrite Hpn. fold out1. rewrite (rich_print_prints _ _ Hp1). simpl.
  rewrite (write_manifest_array out1 (article data) items Hm (proj1 Hsound1))
    in Hcollect |- *.
  rewrite Hidx. unfold write_index. simpl in Hcollect. rewrite Hcollect.
  unfold render_index, get_template. simpl. rewrite Htpl. simpl.
  rewrite (rich_print_prints _ _ Hp2), (rich_print_prints _ _ Hp3). simpl.
  by rewrite <- !app_assoc.
Qed.

Lemma write_index_elsewhere out_dir out tdir adir name :
  name ≠ "index.html" →
  (write_index w out_dir out tdir adir).1 !! name = out !! name.
Proof.
  intros Hn. unfold write_index.
  destruct (collect_articles out) as [lg [arts|e0]]; [|done].
  destruct (render_index _ _ _) as [html|e1]; simpl; [|done].
  by rewrite lookup_insert_ne.
Qed.

Lemma generate_article_html_elsewhere fs out inp tdir adir root odir name :
  (∀ data, load_article_data fs inp = Ok data → name ≠ page_name data) →
  (generate_article_html w fs out inp tdir adir root odir).1 !! name =
    out !! name.
Proof.
  intros Hn. unfold generate_article_html.
  destruct (load_article_data fs inp) as [data|e0]; [|done].
  pose proof (page_name_rendered (mkGenerator tdir adir) data root) as Hpn.
  destruct (render_article w _ data root) as [data' [lg [html|e1]]];
    simpl in *; [|done].
  rewrite Hpn. apply lookup_insert_ne. symmetry. by apply Hn.
Qed.

(** X21.  Whether it returns or raises, with or without [--index], [main]
    changes no file of the output directory other than [manifest.json],
    [index.html], the page [<slug>.html] and the sidecar
    [<slug>.meta.json] of the article it loaded. *)
Theorem main_frame fs out args name :
  name ≠ "manifest.json" →
  name ≠ "index.html" →
  (∀ data, load_article_data fs (arg_input args) = Ok data →
           name ≠ page_name data ∧ name ≠ sidecar_name (article data)) →
  (main w fs out args).1 !! name = out !! name.
Proof.
  intros Hn1 Hn2 Hn3. unfold main.
  pose proof (generate_article_html_elsewhere fs out (arg_input args)
                (arg_templates args) (arg_assets args) (arg_images_root args)
                (arg_out args) name (λ data Hd, proj1 (Hn3 data Hd))) as Hgen.
  destruct (generate_article_html w fs out _ _ _ _ _)
    as [out1 [lg1 [out_path|e1]]]; simpl in Hgen |- *; [|done].
  destruct (load_article_data fs (arg_input args)) as [data|e0]; [|done].
  destruct (Hn3 data eq_refl) as [Hpage Hside].
  pose proof (write_manifest_elsewhere out1 (article data) name Hn1 Hside)
    as Hwm.
  destruct (write_manifest out1 (article data)) as [out2 [[]|e2]];
    simpl in Hwm |- *; [|congruence].
  destruct (arg_index args); simpl; [|congruence].
  pose proof (write_index_elsewhere (arg_out args) out2 (arg_templates args)
                (arg_assets args) name Hn2) as Hwi.
  destruct (write_index w _ out2 _ _) as [out3 indexed].
  simpl in Hwi |- *. congruence.
Qed.

End OrchestratorExtras.

(** * The further properties on the sample inputs *)

Lemma yaml_suffix_any_case_witness :
  load_article_data (B := sample_builtins) yaml_fs "Post.YAML" =
    build_article_data (B := sample_builtins) notes_tree.
Proof.
  apply (yaml_suffix_any_case (B := sample_builtins) yaml_fs "Post" ".YAML"
           {| yaml_of := Some notes_tree; json_of := None |}).
  - left. reflexivity.
  - vm_compute. reflexivity.
Defined.

Lemma loaded_fields_normalized_witness :
  is_opt_str (date (article rated_data)) = true ∧
  is_opt_str_list (tags (article rated_data)) = true ∧
  Forall (λ r, review_normalized r = true) (reviews rated_data).
Proof.
  apply (loaded_fields_normalized (B := sample_builtins) rated_fs "in.json").
  vm_compute. reflexivity.
Defined.

Lemma article_date_and_tags_witness :
  date (article dated_data) = VStr "2024-05-01" ∧
  tags (article dated_data) = VList [VStr "x"; VStr "True"].
Proof.
  apply (article_date_and_tags (B := sample_builtins) dated_fs "post.yml"
           {| yaml_of := Some (VDict [("article", VDict dated_article)]);
              json_of := None |}
           [("article", VDict dated_article)] dated_article dated_data);
    vm_compute; reflexivity.
Defined.

Lemma load_minimal_input_witness :
  load_article_data (B := sample_builtins) minimal_fs "in.json" =
    Ok {| article := mkArticleMeta (VStr "T") (VStr "s") VNull VNull (VList [])
                       VNull VNull;
          reviews := [minimal_review (VStr "ann")];
          gallery_dir := VNull |}.
Proof.
  apply (load_minimal_input (B := sample_builtins) minimal_fs "in.json"
           {| yaml_of := None; json_of := Some (VDict minimal_top) |}
           minimal_top (VStr "T") (VStr "s") [VStr "ann"]);
    vm_compute; reflexivity.
Defined.

Lemma load_unknown_article_key_witness :
  load_article_data (B := sample_builtins) misspelt_fs "in.json" =
    Raise TypeError.
Proof.
  apply (load_unknown_article_key (B := sample_builtins) misspelt_fs "in.json"
           {| yaml_of := None;
              json_of := Some (VDict [("article", VDict misspelt_article)]) |}
           [("article", VDict misspelt_article)] misspelt_article "desciption").
  - vm_compute. reflexivity.
  - reflexivity.
  - reflexivity.
  - simpl. set_solver.
  - unfold ArticleMeta_fields. rewrite list_elem_of_In. simpl.
    intros H. repeat destruct H as [H|H]; try discriminate. exact H.
Defined.

Lemma load_reviews_not_iterable_witness :
  load_article_data (B := sample_builtins) null_reviews_fs "in.json" =
    Raise TypeError.
Proof.
  apply (load_reviews_not_iterable (B := sample_builtins) null_reviews_fs
           "in.json"
           {| yaml_of := None; json_of := Some (VDict null_reviews_top) |}
           null_reviews_top (VDict [("title", VStr "T"); ("slug", VStr "s")])
           VNull);
    vm_compute; reflexivity.
Defined.

Lemma write_manifest_frame_witness :
  (write_manifest (B := sample_builtins) one_entry_out meta_B).1 !! "a.html" =
    one_entry_out !! "a.html".
Proof.
  apply (write_manifest_frame (B := sample_builtins) one_entry_out meta_B
           "a.html"); vm_compute; discriminate.
Defined.

Lemma sidecar_mirrors_manifest_witness :
  ∃ stored,
    (write_manifest (B := sample_builtins) one_entry_out meta_B).1
      !! "manifest.json" =
      Some (JsonFile (VList (stored ++
                             [manifest_entry (B := sample_builtins) meta_B]))) ∧
    (write_manifest (B := sample_builtins) one_entry_out meta_B).1
      !! sidecar_name (B := sample_builtins) meta_B =
      Some (JsonFile (manifest_entry (B := sample_builtins) meta_B)).
Proof.
  apply (sidecar_mirrors_manifest (B := sample_builtins) one_entry_out
           [manifest_entry (B := sample_builtins) meta_A] meta_B).
  - reflexivity.
  - split; vm_compute; reflexivity.
Defined.

Lemma write_manifest_non_object_witness :
  write_manifest (B := sample_builtins) number_out meta_A =
    (number_out, Raise AttributeError).
Proof.
  apply (write_manifest_non_object (B := sample_builtins) number_out
           [VInt 1] meta_A).
  - vm_compute. reflexivity.
  - constructor. reflexivity.
Defined.

Lemma write_manifest_over_unreadable_witness :
  (write_manifest (B := sample_builtins) broken_out meta_A).2 = Ok tt ∧
  (write_manifest (B := sample_builtins) broken_out meta_A).1
    !! "manifest.json" =
    Some (JsonFile (VList [manifest_entry (B := sample_builtins) meta_A])).
Proof.
  apply (write_manifest_over_unreadable (B := sample_builtins) broken_out
           meta_A).
  - reflexivity.
  - intros v. vm_compute. discriminate.
Defined.

Lemma read_manifest_stops_at_first_bad_witness :
  ∃ ms,
    Forall2 (λ i m, ArticleMeta_of_value i = Ok m)
            [manifest_entry (B := sample_builtins) meta_A] ms ∧
    read_manifest_for_index damaged_out = (ms, [manifest_warning]).
Proof.
  apply (read_manifest_stops_at_first_bad damaged_out
           [manifest_entry (B := sample_builtins) meta_A]
           (VDict [("slug", VStr "b")])
           [manifest_entry (B := sample_builtins) meta_C]);
    vm_compute; reflexivity.
Defined.

Lemma write_manifests_unique_slugs_witness :
  (∀ k m, [meta_A; meta_B; meta_A2] !! k = Some m →
          (write_manifest (B := sample_builtins)
             (write_manifests (B := sample_builtins) ∅
                (take k [meta_A; meta_B; meta_A2])) m).2 = Ok tt) ∧
  ∃ items ss,
    read_items (write_manifests (B := sample_builtins) ∅
                  [meta_A; meta_B; meta_A2]) = VList items ∧
    stored_slugs items = map VStr ss ∧ NoDup ss ∧
    (∀ s, s ∈ ss ↔ ∃ m, m ∈ [meta_A; meta_B; meta_A2] ∧ slug m = VStr s).
Proof.
  apply (write_manifests_unique_slugs (B := sample_builtins) ∅
           [meta_A; meta_B; meta_A2]).
  - reflexivity.
  - repeat constructor.
Defined.

Lemma index_rebuilt_from_sidecar_witness :
  ∃ lines m',
    collect_articles
      (delete "manifest.json"
         (write_manifest (B := sample_builtins) ∅ meta_B).1) =
      (lines, Ok [m']) ∧
    title m' = title meta_B ∧ slug m' = slug meta_B ∧
    description m' = description meta_B ∧ date m' = date meta_B ∧
    tags m' = tags meta_B.
Proof.
  apply (index_rebuilt_from_sidecar (B := sample_builtins) ∅ [] meta_B).
  - reflexivity.
  - split; reflexivity.
  - intros name f Hf. rewrite lookup_empty in Hf. discriminate.
  - intros v. rewrite lookup_delete_eq. discriminate.
  - intros name Hn. apply lookup_delete_ne. congruence.
Defined.

Lemma unreadable_sidecar_aborts_witness :
  (collect_articles broken_sidecar_out).2 = Raise JSONDecodeError.
Proof.
  apply (unreadable_sidecar_aborts broken_sidecar_out "x.meta.json" Broken).
  - reflexivity.
  - vm_compute. reflexivity.
  - vm_compute. reflexivity.
  - intros v. discriminate.
Defined.

Lemma render_article_listing_order_witness :
  render_article
    (with_listdir sample_world (λ d, reverse (listdir sample_world d)))
    sample_generator sample_data "/img" =
  render_article sample_world sample_generator sample_data "/img".
Proof.
  apply (render_article_listing_order sample_world "/img"
           (λ d, reverse (listdir sample_world d))).
  intros d. apply reverse_Permutation.
Defined.

Lemma missing_gallery_is_silent_witness :
  (render_article sample_world sample_generator no_gallery_data "/img").2 =
    ([missing_image "/img/hero.jpg"; missing_image "/img/missing.png"],
     Ok "").
Proof.
  apply (missing_gallery_is_silent sample_world "/img" sample_generator
           no_gallery_data sample_template "nowhere").
  - reflexivity.
  - exact sample_relpath_nonempty.
  - reflexivity.
  - repeat constructor.
  - exact sample_warnings_print.
  - reflexivity.
  - reflexivity.
Defined.

Lemma render_article_stops_at_bad_images_witness :
  (render_article sample_world sample_generator null_images_data "/img").2.2 =
    Raise TypeError ∧
  reviews (render_article sample_world sample_generator null_images_data
             "/img").1 =
    [set_images sample_review (VList [VStr "a.jpg"]); null_images_review;
     sample_review].
Proof.
  apply (render_article_stops_at_bad_images sample_world "/img"
           sample_generator null_images_data sample_template
           [sample_review] null_images_review [sample_review]).
  - reflexivity.
  - exact sample_relpath_nonempty.
  - reflexivity.
  - reflexivity.
  - reflexivity.
  - repeat constructor.
  - exact sample_warnings_print.
  - reflexivity.
Defined.

(** The sample console refuses the warning of [a[/b].png]: [[/b]] closes a
    tag that was never opened. *)
Lemma render_article_stops_at_refused_warning_witness :
  (render_article sample_world sample_generator bracket_data "/img").2 =
    ([missing_image "/img/hero.jpg"; missing_image "/img/missing.png"],
     Raise MarkupError) ∧
  reviews (render_article sample_world sample_generator bracket_data "/img").1 =
    [set_images sample_review (VList [VStr "a.jpg"]); bracket_review;
     sample_review].
Proof.
  apply (render_article_stops_at_refused_warning sample_world "/img"
           sample_generator bracket_data sample_template
           [sample_review] bracket_review [sample_review]
           ["a.jpg"] "a[/b].png" ["missing.png"] MarkupError).
  - reflexivity.
  - exact sample_relpath_nonempty.
  - reflexivity.
  - reflexivity.
  - reflexivity.
  - repeat constructor.
  - reflexivity.
  - exact sample_warnings_print.
  - discriminate.
  - vm_compute. discriminate.
  - vm_compute. reflexivity.
Defined.

Lemma cli_relpath_nonempty : relpath_nonempty cli_world.
Proof. exact sample_relpath_nonempty. Qed.

Lemma main_with_index_witness :
  (main (B := sample_builtins) cli_world cli_fs one_entry_out cli_run).2.2 =
    Ok tt ∧
  (main (B := sample_builtins) cli_world cli_fs one_entry_out cli_run).1
    !! "index.html" = Some (Page "article,article").
Proof.
  destruct (main_with_index (B := sample_builtins) cli_world cli_fs
              one_entry_out
              [manifest_entry (B := sample_builtins) meta_A] cli_run cli_data
              "gal/a.jpg,gal/b.png" sample_page)
    as (lines & earlier & m' & Hmain & HF & _).
  - reflexivity.
  - vm_compute. reflexivity.
  - reflexivity.
  - vm_compute. reflexivity.
  - reflexivity.
  - repeat split; vm_compute; reflexivity.
  - vm_compute. reflexivity.
  - vm_compute. reflexivity.
  - vm_compute. reflexivity.
  - rewrite Hmain. simpl. split; [reflexivity|].
    rewrite lookup_insert_eq.
    apply Forall2_length in HF. simpl in HF.
    destruct earlier as [|x [|y l]]; try discriminate. reflexivity.
Defined.

Lemma main_frame_witness :
  (main (B := sample_builtins) cli_world cli_fs one_entry_out cli_run).1
    !! "notes.txt" = one_entry_out !! "notes.txt".
Proof.
  apply (main_frame (B := sample_builtins) cli_world cli_fs one_entry_out
           cli_run "notes.txt").
  - discriminate.
  - discriminate.
  - intros data Hdata. vm_compute in Hdata. injection Hdata as <-.
    split; vm_compute; discriminate.
Defined.
